(** * OSS Directory pull-request tooling: summary aggregation and validation

    A shallow embedding of [ops/external-prs/src/ossd/index.ts]: the
    [OSSDirectoryPullRequest] class with its [initialize], [list],
    [loadValidators] and [validate] methods.

    - JS [number]s that hold row counts are [Z].
    - [Record<string, T>] objects used as dictionaries are [gmap string T];
      a missing key reads as [undefined], here [None].  The keys that occur
      are artifact types and network names, none of which is a property that
      a plain object inherits.
    - [async] methods run their awaits one after the other, so a method is a
      function on an explicit state that either returns or throws.  The
      state keeps the predicate calls made and the comments left on the PR.
    - [logger.info] calls are left out.  Rendering a message template and
      posting the comment are taken not to fail; the comment is kept as the
      template name with its parameters.
    - The SQL templates under [queries/] and the on-chain validators are not
      part of the file; what the methods receive from them is an input of the
      embedded functions. *)

From Stdlib Require Import ZArith Lia.
From stdpp Require Import base strings list gmap fin_maps sorting.

Local Open Scope string_scope.
Local Open Scope list_scope.
Local Open Scope Z_scope.

(** ** Row and summary types of [index.ts] *)

(** A row of [SELECT * FROM artifacts_summary] (the cast at lines 379-384). *)
Module SummaryRow.
Record t := mk {
  type : string;
  status : string;
  count : Z;
  unique_count : Z;
}.
End SummaryRow.

(** [type Summary] *)
Record Summary := mkSummary {
  added : Z;
  removed : Z;
  existing : Z;
}.

Definition set_added (s : Summary) (n : Z) : Summary :=
  {| added := n; removed := removed s; existing := existing s |}.
Definition set_removed (s : Summary) (n : Z) : Summary :=
  {| added := added s; removed := n; existing := existing s |}.
Definition set_existing (s : Summary) (n : Z) : Summary :=
  {| added := added s; removed := removed s; existing := n |}.

(** ** [initialize]: the loop that fills [summaries] (lines 385-402)

    One iteration of [for (const row of artifactsSummary)].  The first row of
    a type creates the entry; a later row of the same type assigns one field
    of the entry that is already there.  The second test of the [else] branch
    reads [row.type], as the source does. *)
Definition summariesStep (summaries : gmap string Summary) (row : SummaryRow.t)
  : gmap string Summary :=
  let ty := SummaryRow.type row in
  let st := SummaryRow.status row in
  let n := SummaryRow.count row in
  match summaries !! ty with
  | None =>
      <[ty := {| added := if String.eqb st "ADDED" then n else 0;
                 removed := if String.eqb st "REMOVED" then n else 0;
                 existing := if String.eqb st "EXISTING" then n else 0 |}]> summaries
  | Some s =>
      if String.eqb st "ADDED" then <[ty := set_added s n]> summaries
      else if String.eqb ty "REMOVED" then <[ty := set_removed s n]> summaries
      else <[ty := set_existing s n]> summaries
  end.

Definition buildSummaries (artifactsSummary : list SummaryRow.t)
  : gmap string Summary :=
  foldl summariesStep ∅ artifactsSummary.

(** The count that [artifacts_summary] reports for a type and a status: the
    [count] of the row carrying both, [0] when there is no such row. *)
Definition reportedCount (rows : list SummaryRow.t) (ty st : string) : Z :=
  match filter (λ r, SummaryRow.type r = ty ∧ SummaryRow.status r = st) rows with
  | r :: _ => SummaryRow.count r
  | [] => 0
  end.

(** [artifacts.summary] of the [ChangeSummary] (lines 410-414). *)
Record ArtifactSummaries := mkArtifactSummaries {
  blockchain : option Summary;
  code : option Summary;
  package : option Summary;
}.

Definition artifactSummaries (summaries : gmap string Summary) : ArtifactSummaries :=
  {| blockchain := summaries !! "BLOCKCHAIN";
     code := summaries !! "CODE";
     package := summaries !! "PACKAGE" |}.

(** ** Types used by [list] and [validate] *)

(** [type ProjectSummary]: a row of the [changed_projects] query. *)
Module ProjectSummary.
Record t := mk {
  project_slug : string;
  status : string;
  blockchain_added : Z;
  blockchain_removed : Z;
  blockchain_unchanged : Z;
  blockchain_unique_added : Z;
  blockchain_unique_removed : Z;
  blockchain_unique_unchanged : Z;
  code_added : Z;
  code_removed : Z;
  code_unchanged : Z;
  package_added : Z;
  package_removed : Z;
  package_unchanged : Z;
}.
End ProjectSummary.

(** [type BlockchainStatus]: a row of [changed_blockchain_artifacts]. *)
Module BlockchainStatus.
Record t := mk {
  project_slug : string;
  address : string;
  tag : string;
  network : string;
  project_relation_status : string;
  address_status : string;
  network_status : string;
  network_tag_status : string;
}.
End BlockchainStatus.

(** [type CodeStatus] *)
Module CodeStatus.
Record t := mk { project_slug : string; code_url : string; status : string }.
End CodeStatus.

(** [type PackageStatus] *)
Module PackageStatus.
Record t := mk { project_slug : string; package_url : string; status : string }.
End PackageStatus.

(** [type BlockchainValidationItem] *)
Module BlockchainValidationItem.
Record t := mk {
  address : string;
  tags : list string;
  networks : list string;
}.
End BlockchainValidationItem.

(** [type ChangeSummary], with [artifacts.summary], [artifacts.status] and
    [artifacts.toValidate] flattened into fields. *)
Module ChangeSummary.
Record t := mk {
  projects : list ProjectSummary.t;
  summary : ArtifactSummaries;
  status_blockchain : list BlockchainStatus.t;
  status_code : list CodeStatus.t;
  status_package : list PackageStatus.t;
  toValidate_blockchain : list BlockchainValidationItem.t;
}.
End ChangeSummary.

(** An element of [validationErrors] (line 507). *)
Module ValidationError.
Record t := mk { address : string; error : string }.
End ValidationError.

(** The validators come from [@opensource-observer/oss-artifact-validators];
    a validator is represented by the factory that made it and its RPC URL. *)
Inductive ValidatorFactory := OptimismValidator | EthereumValidator.

Record EVMNetworkValidator := mkValidator {
  factory : ValidatorFactory;
  rpcUrl : string;
}.

(** The three predicates of a validator. *)
Inductive Predicate := isEOA | isContract | isDeployer.

(** One predicate call: the key under which the validator was found, the
    validator, the predicate and the address passed. *)
Module Call.
Record t := mk {
  network : string;
  validator : EVMNetworkValidator;
  predicate : Predicate;
  address : string;
}.
End Call.

(** What awaiting a predicate call gives: the promise resolves to a boolean
    or rejects. *)
Inductive Outcome := Resolved (b : bool) | Rejected (reason : string).

(** What is thrown out of a method. *)
Inductive Exn :=
| Error (message : string)            (* [new Error(message)] *)
| TypeError (property : string)       (* reading [property] of [undefined] *)
| Rejection (reason : string).        (* an awaited promise rejected *)

Inductive Result (A : Type) := Ok (a : A) | Throw (e : Exn).
Arguments Ok {A} a.
Arguments Throw {A} e.

(** The parameters handed to the mustache template of a comment. *)
Record ProjectCounts := mkProjectCounts {
  projects_added : Z;
  projects_removed : Z;
  projects_unchanged : Z;
}.

Inductive TemplateParams :=
| ListChangesParams (projects : ProjectCounts) (artifacts : ArtifactSummaries)
| ValidationErrorsParams (validationErrors : list ValidationError.t).

(** A call of [args.appUtils.leaveCommentOnPr]: the PR number, the message
    template under [messages/] and its parameters. *)
Record Comment := mkComment {
  comment_pr : Z;
  template : string;
  params : TemplateParams;
}.

(** [process.env], as far as [loadValidators] reads it. *)
Record Env := mkEnv {
  OPTIMISM_RPC_URL : option string;
  MAINNET_RPC_URL : option string;
}.

(** The state a method runs on: the [validators] field of the object, the
    local array [validationErrors] of [validate], the predicate calls made so
    far with their outcomes, and the comments left on the PR. *)
Record St := mkSt {
  validators : gmap string EVMNetworkValidator;
  validationErrors : list ValidationError.t;
  calls : list (Call.t * Outcome);
  comments : list Comment;
}.

(** The state after the private constructor ([this.validators = {}]). *)
Definition newPullRequest : St :=
  {| validators := ∅; validationErrors := []; calls := []; comments := [] |}.

(** ** Methods as state transformers that return or throw *)

Definition M (A : Type) : Type := St → Result A * St.

Definition ret {A} (a : A) : M A := λ s, (Ok a, s).
Definition bind {A B} (m : M A) (k : A → M B) : M B := λ s,
  match m s with
  | (Ok a, s') => k a s'
  | (Throw e, s') => (Throw e, s')
  end.

Declare Scope method_scope.
Delimit Scope method_scope with method.
Notation "'let!' x ':=' m 'in' k" := (bind m (λ x, k))
  (at level 10, x name, m at level 100, k at level 200) : method_scope.
Notation "m1 ';;;' m2" := (bind m1 (λ _, m2))
  (at level 100, m2 at level 200, right associativity) : method_scope.
Local Open Scope method_scope.

(** [for (const x of xs) body]: the iterations run in order and a throw
    leaves the loop. *)
Fixpoint forOf {A} (xs : list A) (body : A → M unit) : M unit :=
  match xs with
  | [] => ret tt
  | x :: xs' => body x ;;; forOf xs' body
  end.

(** JS truthiness of [process.env.X]: unset and the empty string are falsy. *)
Definition truthy (v : option string) : option string :=
  match v with
  | Some s => if String.eqb s "" then None else Some s
  | None => None
  end.

(** [loadValidators] (lines 242-257). *)
Definition loadValidators (env : Env) : M unit := λ s,
  match truthy (OPTIMISM_RPC_URL env), truthy (MAINNET_RPC_URL env) with
  | Some optimismRpc, Some mainnetRpc =>
      (Ok tt,
       {| validators :=
            <["mainnet" := mkValidator EthereumValidator mainnetRpc]>
              (<["optimism" := mkValidator OptimismValidator optimismRpc]>
                 (validators s));
          validationErrors := validationErrors s;
          calls := calls s;
          comments := comments s |})
  | _, _ => (Throw (Error "RPC URLs are required to do validation"), s)
  end.

(** [args.appUtils.leaveCommentOnPr(pr, render(template, params))]. *)
Definition leaveCommentOnPr (pr : Z) (tpl : string) (p : TemplateParams) : M unit :=
  λ s, (Ok tt,
        {| validators := validators s;
           validationErrors := validationErrors s;
           calls := calls s;
           comments := comments s ++ [mkComment pr tpl p] |}).

(** [validationErrors.push({address, error})]. *)
Definition pushError (address error : string) : M unit :=
  λ s, (Ok tt,
        {| validators := validators s;
           validationErrors := validationErrors s ++ [ValidationError.mk address error];
           calls := calls s;
           comments := comments s |}).

(** [const validationErrors = []] (line 507). *)
Definition resetErrors : M unit :=
  λ s, (Ok tt,
        {| validators := validators s;
           validationErrors := [];
           calls := calls s;
           comments := comments s |}).

(** [this.validators[network]] *)
Definition getValidator (network : string) : M (option EVMNetworkValidator) :=
  λ s, (Ok (validators s !! network), s).

Definition getErrors : M (list ValidationError.t) :=
  λ s, (Ok (validationErrors s), s).

Definition predicateName (p : Predicate) : string :=
  match p with
  | isEOA => "isEOA"
  | isContract => "isContract"
  | isDeployer => "isDeployer"
  end.

Section Validate.

(** The chain behind the validators: what a predicate call answers, given
    the calls answered before it. *)
Variable rpc : list (Call.t * Outcome) → Call.t → Outcome.

(** [await validator.p(address)]: on [undefined] the property read throws;
    otherwise the call is made and its promise awaited. *)
Definition callPredicate (validator : option EVMNetworkValidator)
    (network : string) (p : Predicate) (address : string) : M bool := λ s,
  match validator with
  | None => (Throw (TypeError (predicateName p)), s)
  | Some v =>
      let c := Call.mk network v p address in
      let o := rpc (calls s) c in
      let s' := {| validators := validators s;
                   validationErrors := validationErrors s;
                   calls := calls s ++ [(c, o)];
                   comments := comments s |} in
      match o with
      | Resolved b => (Ok b, s')
      | Rejected reason => (Throw (Rejection reason), s')
      end
  end.

(** The body of the inner loop (lines 512-542). *)
Definition validateNetwork (item : BlockchainValidationItem.t) (network : string)
  : M unit :=
  let address := BlockchainValidationItem.address item in
  let tags := BlockchainValidationItem.tags item in
  let! validator := getValidator network in
  (if bool_decide ("eoa" ∈ tags) then
     let! ok := callPredicate validator network isEOA address in
     if negb ok then pushError address "is not an EOA" else ret tt
   else ret tt) ;;;
  (if bool_decide ("contract" ∈ tags) then
     let! ok := callPredicate validator network isContract address in
     if negb ok then pushError address "is not a Contract" else ret tt
   else ret tt) ;;;
  (if bool_decide ("deployer" ∈ tags) then
     let! ok := callPredicate validator network isDeployer address in
     if negb ok then pushError address "is not a Deployer" else ret tt
   else ret tt).

(** The two nested loops (lines 509-544). *)
Definition validateItems (items : list BlockchainValidationItem.t) : M unit :=
  forOf items (λ item,
    forOf (BlockchainValidationItem.networks item) (validateNetwork item)).

(** [validate] (lines 497-562); [pr] is [args.pr]. *)
Definition validate (pr : Z) (env : Env) (changes : ChangeSummary.t) : M unit :=
  loadValidators env ;;;
  resetErrors ;;;
  validateItems (ChangeSummary.toValidate_blockchain changes) ;;;
  let! errors := getErrors in
  if negb (Nat.eqb (length errors) 0) then
    leaveCommentOnPr pr "validation-errors.md" (ValidationErrorsParams errors)
  else ret tt.

End Validate.

(** A row of the [unchanged_projects] query. *)
Record UnchangedProjects := mkUnchangedProjects { total : Z }.

(** [list] (lines 468-495). *)
Definition listChanges (pr : Z) (unchangedProjects : list UnchangedProjects)
    (changes : ChangeSummary.t) : M unit :=
  let unchangedProjectsCount :=
    if Nat.eqb (length unchangedProjects) 0 then 0
    else Z.of_nat (length unchangedProjects) in
  let updatedProjectsCount := Z.of_nat (length (ChangeSummary.projects changes)) in
  leaveCommentOnPr pr "list-changes.md"
    (ListChangesParams
       {| projects_added := updatedProjectsCount;
          projects_removed := 0;
          projects_unchanged := unchangedProjectsCount |}
       (ChangeSummary.summary changes)).

(** ** The nested loops of [validate] as one loop over predicate calls *)

(** A call expression [validator.p(address)] that the loops reach, with the
    network whose validator it uses. *)
Module Attempt.
Record t := mk {
  network : string;
  predicate : Predicate;
  address : string;
}.
End Attempt.

Definition attemptOf (c : Call.t) : Attempt.t :=
  Attempt.mk (Call.network c) (Call.predicate c) (Call.address c).

(** The message pushed when a predicate resolves to a falsy value. *)
Definition reasonOf (p : Predicate) : string :=
  match p with
  | isEOA => "is not an EOA"
  | isContract => "is not a Contract"
  | isDeployer => "is not a Deployer"
  end.

(** The tag that guards a predicate. *)
Definition tagOf (p : Predicate) : string :=
  match p with
  | isEOA => "eoa"
  | isContract => "contract"
  | isDeployer => "deployer"
  end.

(** The call expressions of one pass through the inner loop body, in the
    order of the three [if] statements. *)
Definition attemptsOf (item : BlockchainValidationItem.t) (network : string)
  : list Attempt.t :=
  let address := BlockchainValidationItem.address item in
  let tags := BlockchainValidationItem.tags item in
  (if bool_decide ("eoa" ∈ tags) then [Attempt.mk network isEOA address] else []) ++
  (if bool_decide ("contract" ∈ tags) then [Attempt.mk network isContract address] else []) ++
  (if bool_decide ("deployer" ∈ tags) then [Attempt.mk network isDeployer address] else []).

Definition expectedAttempts (items : list BlockchainValidationItem.t) : list Attempt.t :=
  item ← items;
  network ← BlockchainValidationItem.networks item;
  attemptsOf item network.

(** The failure a completed call stands for, if any. *)
Definition failureOf (ev : Call.t * Outcome) : option ValidationError.t :=
  match ev.2 with
  | Resolved false =>
      Some (ValidationError.mk (Call.address ev.1) (reasonOf (Call.predicate ev.1)))
  | _ => None
  end.

Definition resolved (ev : Call.t * Outcome) : Prop :=
  ∃ b, ev.2 = Resolved b.

(** The state after the calls [evs] have completed. *)
Definition extend (s : St) (evs : list (Call.t * Outcome)) : St :=
  {| validators := validators s;
     validationErrors := validationErrors s ++ omap failureOf evs;
     calls := calls s ++ evs;
     comments := comments s |}.

Section Flat.

Variable rpc : list (Call.t * Outcome) → Call.t → Outcome.

(** One guarded block of the loop body, once its tag test has passed. *)
Definition check (a : Attempt.t) : M unit :=
  let! validator := getValidator (Attempt.network a) in
  let! ok := callPredicate rpc validator (Attempt.network a)
               (Attempt.predicate a) (Attempt.address a) in
  if negb ok then pushError (Attempt.address a) (reasonOf (Attempt.predicate a))
  else ret tt.

(** Each outcome in [evs] is the chain's answer after the history [h] and
    the calls before it, on the validator registered for the network. *)
Fixpoint answered (vs : gmap string EVMNetworkValidator)
    (h evs : list (Call.t * Outcome)) : Prop :=
  match evs with
  | [] => True
  | ev :: evs' =>
      vs !! Call.network ev.1 = Some (Call.validator ev.1) ∧
      ev.2 = rpc h ev.1 ∧
      answered vs (h ++ [ev]) evs'
  end.

End Flat.

(** The first predicate the loop body calls for a list of tags. *)
Definition firstCheck (tags : list string) : option Predicate :=
  if bool_decide ("eoa" ∈ tags) then Some isEOA
  else if bool_decide ("contract" ∈ tags) then Some isContract
  else if bool_decide ("deployer" ∈ tags) then Some isDeployer
  else None.

(** ** Sample inputs *)

Definition exampleSummaryRows : list SummaryRow.t :=
  [ SummaryRow.mk "BLOCKCHAIN" "ADDED" 3 2;
    SummaryRow.mk "BLOCKCHAIN" "REMOVED" 2 1 ].

Definition exampleEnv : Env :=
  mkEnv (Some "https://optimism.example") (Some "https://mainnet.example").

Definition changesWith (items : list BlockchainValidationItem.t) : ChangeSummary.t :=
  ChangeSummary.mk [] (mkArtifactSummaries None None None) [] [] [] items.

(** A chain on which every predicate resolves to the same boolean. *)
Definition chainAlways (b : bool) : list (Call.t * Outcome) → Call.t → Outcome :=
  λ _ _, Resolved b.

(** A chain whose calls for the address [0xA] reject. *)
Definition chainRejecting : list (Call.t * Outcome) → Call.t → Outcome :=
  λ _ c, if String.eqb (Call.address c) "0xA" then Rejected "timeout"
         else Resolved false.

(** The state of a pull request once [loadValidators] has run. *)
Definition loadedPullRequest : St :=
  (loadValidators exampleEnv newPullRequest).2.

Definition itemGoerli : BlockchainValidationItem.t :=
  BlockchainValidationItem.mk "0xA" ["eoa"] ["goerli"].
Definition itemA : BlockchainValidationItem.t :=
  BlockchainValidationItem.mk "0xA" ["eoa"] ["optimism"].
Definition itemB : BlockchainValidationItem.t :=
  BlockchainValidationItem.mk "0xB" ["eoa"] ["optimism"; "mainnet"].
Definition itemOnOptimism : BlockchainValidationItem.t :=
  BlockchainValidationItem.mk "0xDEF" ["contract"] ["optimism"].
Definition itemOnMainnet : BlockchainValidationItem.t :=
  BlockchainValidationItem.mk "0xDEF" ["contract"] ["mainnet"].

(** What a chain whose answers do not depend on earlier calls makes of one
    call expression: the failure pushed for it, if any. *)
Definition attemptFailure (ans : Call.t → Outcome)
    (vs : gmap string EVMNetworkValidator) (a : Attempt.t) : list ValidationError.t :=
  match vs !! Attempt.network a with
  | Some v =>
      match ans (Call.mk (Attempt.network a) v (Attempt.predicate a) (Attempt.address a)) with
      | Resolved false =>
          [ValidationError.mk (Attempt.address a) (reasonOf (Attempt.predicate a))]
      | _ => []
      end
  | None => []
  end.

(** Failures ordered by address, then by reason (code-unit order). *)
Definition failure_le (f1 f2 : ValidationError.t) : Prop :=
  match String.compare (ValidationError.address f1) (ValidationError.address f2) with
  | Lt => True
  | Eq => String.leb (ValidationError.error f1) (ValidationError.error f2) = true
  | Gt => False
  end.

(** How the result of a run of the call loop relates to the calls [evs] it
    made, for the call expressions [exp] it was to go through. *)
Definition runSpec (exp : list Attempt.t) (s : St) (r : Result unit)
    (evs : list (Call.t * Outcome)) : Prop :=
  match r with
  | Ok _ => (attemptOf ∘ fst) <$> evs = exp ∧ Forall resolved evs
  | Throw (Rejection reason) =>
      ∃ evs0 c rest,
        evs = evs0 ++ [(c, Rejected reason)] ∧ Forall resolved evs0 ∧
        exp = ((attemptOf ∘ fst) <$> evs) ++ rest
  | Throw (TypeError name) =>
      ∃ a rest,
        exp = ((attemptOf ∘ fst) <$> evs) ++ a :: rest ∧
        validators s !! Attempt.network a = None ∧
        name = predicateName (Attempt.predicate a) ∧ Forall resolved evs
  | Throw (Error _) => False
  end.

(** ** The diff behind the queries

    [initialize] gets its rows from DuckDB tables built by the SQL templates
    under [queries/], which are not part of [index.ts].  The definitions of
    this part follow sections 3, 4.1-4.4 and 6 of the specification. *)

(** Modelled from the spec: the status of section 3's [ClassifiedRow], which
    the missing [*_status.sql] queries compute. *)
Inductive Status := ADDED | REMOVED | EXISTING.

Global Instance Status_eq_dec : EqDecision Status.
Proof. solve_decision. Defined.

(** The string a status is stored as in the rows [index.ts] reads. *)
Definition statusName (st : Status) : string :=
  match st with
  | ADDED => "ADDED"
  | REMOVED => "REMOVED"
  | EXISTING => "EXISTING"
  end.

(** Modelled from the spec: the snapshot records of section 3, as the missing
    loader [loadData] of [oss-directory] returns them.  A [url] or [address]
    may be missing. *)
Module CodeArtifact.
Record t := mk { url : option string }.
End CodeArtifact.

(** Modelled from the spec: [PackageArtifact] of section 3, from the missing
    loader. *)
Module PackageArtifact.
Record t := mk { url : option string }.
End PackageArtifact.

(** Modelled from the spec: [BlockchainArtifact] of section 3, from the
    missing loader. *)
Module BlockchainArtifact.
Record t := mk {
  address : option string;
  network : string;
  tags : list string;
}.
End BlockchainArtifact.

(** Modelled from the spec: [Project] of section 3, from the missing
    loader. *)
Module Project.
Record t := mk {
  slug : string;
  name : string;
  collections : list string;
  code : list CodeArtifact.t;
  package : list PackageArtifact.t;
  blockchain : list BlockchainArtifact.t;
}.
End Project.

(** Modelled from the spec: a collection of the snapshot, from the missing
    loader. *)
Module Collection.
Record t := mk { slug : string; projects : list string }.
End Collection.

(** Modelled from the spec: [Snapshot] of section 3, from the missing
    loader. *)
Module Snapshot.
Record t := mk {
  projects : list Project.t;
  collections : list Collection.t;
}.
End Snapshot.

(** Modelled from the spec: a flat code or package row of section 4.1, from
    the missing [code_artifacts.sql] and [package_artifacts.sql]. *)
Module ArtifactRow.
Record t := mk { project_slug : string; url : string }.
End ArtifactRow.

(** Modelled from the spec: a flat blockchain row of section 4.1, from the
    missing [blockchain_artifacts.sql].  A row holds one tag, as
    [BlockchainStatus] does. *)
Module BlockchainRow.
Record t := mk {
  project_slug : string;
  address : string;
  network : string;
  tag : string;
}.
End BlockchainRow.

Global Instance ArtifactRow_eq_dec : EqDecision ArtifactRow.t.
Proof. solve_decision. Defined.

Global Instance BlockchainRow_eq_dec : EqDecision BlockchainRow.t.
Proof. solve_decision. Defined.

(** Modelled from the spec: [normalize] of section 4.1 (the missing
    [code_artifacts.sql], [package_artifacts.sql], [blockchain_artifacts.sql]);
    an artifact without url or address is dropped. *)
Definition codeRows (snap : Snapshot.t) : list ArtifactRow.t :=
  p ← Snapshot.projects snap;
  a ← Project.code p;
  match CodeArtifact.url a with
  | Some u => [ArtifactRow.mk (Project.slug p) u]
  | None => []
  end.

(** Modelled from the spec: [normalize] on package artifacts (the missing
    [package_artifacts.sql]). *)
Definition packageRows (snap : Snapshot.t) : list ArtifactRow.t :=
  p ← Snapshot.projects snap;
  a ← Project.package p;
  match PackageArtifact.url a with
  | Some u => [ArtifactRow.mk (Project.slug p) u]
  | None => []
  end.

(** Modelled from the spec: [normalize] on blockchain artifacts (the missing
    [blockchain_artifacts.sql]), one row per tag. *)
Definition blockchainRows (snap : Snapshot.t) : list BlockchainRow.t :=
  p ← Snapshot.projects snap;
  a ← Project.blockchain p;
  match BlockchainArtifact.address a with
  | Some addr =>
      t ← BlockchainArtifact.tags a;
      [BlockchainRow.mk (Project.slug p) addr (BlockchainArtifact.network a) t]
  | None => []
  end.

(** Modelled from the spec: the project rows of [normalize], keyed by slug
    (the missing [project_status.sql] reads them). *)
Definition projectRows (snap : Snapshot.t) : list string :=
  Project.slug <$> Snapshot.projects snap.

(** Modelled from the spec: the four statuses that section 3 tracks for a
    blockchain row (the missing [blockchain_status.sql]). *)
Inductive Dimension := ProjectRelation | Address | Network | NetworkTag.

Section Classifier.

Context {K : Type} `{EqDecision K}.

(** Modelled from the spec: [classify] of section 4.2 (the missing
    [*_status.sql] queries).  A key of the PR side only is ADDED, of the
    main side only REMOVED, of both EXISTING; rows that occur several times
    are taken once. *)
Definition statusOfKey (Kmain Kpr : list K) (k : K) : Status :=
  if decide (k ∈ Kmain) then
    if decide (k ∈ Kpr) then EXISTING else REMOVED
  else ADDED.

(** Modelled from the spec: [classify] of section 4.2 on the rows of both
    snapshots (the missing [*_status.sql] queries). *)
Definition classify {R : Type} `{EqDecision R} (mainRows prRows : list R)
    (keyFn : R → K) : list (R * Status) :=
  (λ r, (r, statusOfKey (keyFn <$> mainRows) (keyFn <$> prRows) (keyFn r)))
    <$> remove_dups (mainRows ++ prRows).

(** The key function of each of the four statuses of a blockchain row; the
    specification leaves their definitions to the queries. *)
Variable blockchainKey : Dimension → BlockchainRow.t → K.

(** Modelled from the spec: the four classifications of section 4.2 over
    the same rows, merged into [BlockchainStatus] rows (the missing
    [blockchain_status.sql]). *)
Definition classifyBlockchain (mainRows prRows : list BlockchainRow.t)
  : list BlockchainStatus.t :=
  (λ r,
     let st d := statusName
       (statusOfKey (blockchainKey d <$> mainRows) (blockchainKey d <$> prRows)
          (blockchainKey d r)) in
     BlockchainStatus.mk (BlockchainRow.project_slug r) (BlockchainRow.address r)
       (BlockchainRow.tag r) (BlockchainRow.network r)
       (st ProjectRelation) (st Address) (st Network) (st NetworkTag))
    <$> remove_dups (mainRows ++ prRows).

End Classifier.

Definition statusAt (d : Dimension) (r : BlockchainStatus.t) : string :=
  match d with
  | ProjectRelation => BlockchainStatus.project_relation_status r
  | Address => BlockchainStatus.address_status r
  | Network => BlockchainStatus.network_status r
  | NetworkTag => BlockchainStatus.network_tag_status r
  end.

(** Modelled from the spec: [aggregate] and [aggregateUnique] of section 4.3
    as the rows of the missing [artifacts_summary.sql]: for a type, one row
    per status that occurs, with the number of rows and of distinct
    addresses or urls that have it. *)
Definition summaryRows (ty : string) (rows : list (string * string))
  : list SummaryRow.t :=
  st ← [ADDED; REMOVED; EXISTING];
  let group := filter (λ r, r.2 = statusName st) rows in
  match group with
  | [] => []
  | _ :: _ =>
      [SummaryRow.mk ty (statusName st) (Z.of_nat (length group))
         (Z.of_nat (length (remove_dups (fst <$> group))))]
  end.

Section Diff.

Context {K : Type} `{EqDecision K}.
Variable blockchainKey : Dimension → BlockchainRow.t → K.
(** The status that the blockchain row of [artifacts_summary] counts. *)
Variable summaryDimension : Dimension.

(** Modelled from the spec: the classified project rows of [diff], section 6
    (the missing [project_status.sql]). *)
Definition classifiedProjects (main pr : Snapshot.t) : list (string * Status) :=
  classify (projectRows main) (projectRows pr) id.

(** Modelled from the spec: the classified code rows (the missing
    [code_status.sql]). *)
Definition classifiedCode (main pr : Snapshot.t) : list (ArtifactRow.t * Status) :=
  classify (codeRows main) (codeRows pr) id.

(** Modelled from the spec: the classified package rows (the missing
    [package_status.sql]). *)
Definition classifiedPackage (main pr : Snapshot.t) : list (ArtifactRow.t * Status) :=
  classify (packageRows main) (packageRows pr) id.

(** Modelled from the spec: the classified blockchain rows (the missing
    [blockchain_status.sql]). *)
Definition classifiedBlockchain (main pr : Snapshot.t) : list BlockchainStatus.t :=
  classifyBlockchain blockchainKey (blockchainRows main) (blockchainRows pr).

(** Modelled from the spec: the content of the table [artifacts_summary]
    (section 4.3). *)
Definition artifactsSummary (main pr : Snapshot.t) : list SummaryRow.t :=
  summaryRows "BLOCKCHAIN"
    ((λ r, (BlockchainStatus.address r, statusAt summaryDimension r))
       <$> classifiedBlockchain main pr) ++
  summaryRows "CODE"
    ((λ r, (ArtifactRow.url r.1, statusName r.2)) <$> classifiedCode main pr) ++
  summaryRows "PACKAGE"
    ((λ r, (ArtifactRow.url r.1, statusName r.2)) <$> classifiedPackage main pr).

(** [changes.artifacts.summary] for two snapshots: the loop of
    [initialize] run on that table. *)
Definition diffSummaries (main pr : Snapshot.t) : ArtifactSummaries :=
  artifactSummaries (buildSummaries (artifactsSummary main pr)).

(** Modelled from the spec: the selection of section 4.4 (the missing
    [changed_blockchain_artifacts_to_validate.sql]): the rows with an ADDED
    address, network or tag status. *)
Definition selectedForValidation (rows : list BlockchainStatus.t)
  : list BlockchainStatus.t :=
  filter (λ r, BlockchainStatus.address_status r = "ADDED" ∨
               BlockchainStatus.network_status r = "ADDED" ∨
               BlockchainStatus.network_tag_status r = "ADDED") rows.

(** Modelled from the spec: the grouping of section 4.4, one item per
    address with the tags and networks of its selected rows. *)
Definition toValidateItems (selected : list BlockchainStatus.t)
  : list BlockchainValidationItem.t :=
  (λ addr,
     let own := filter (λ r, BlockchainStatus.address r = addr) selected in
     BlockchainValidationItem.mk addr
       (remove_dups (BlockchainStatus.tag <$> own))
       (remove_dups (BlockchainStatus.network <$> own)))
    <$> remove_dups (BlockchainStatus.address <$> selected).

(** Modelled from the spec: [selectForValidation] of section 6 on the diff of
    two snapshots (the missing [changed_blockchain_artifacts_to_validate.sql]). *)
Definition toValidate (main pr : Snapshot.t) : list BlockchainValidationItem.t :=
  toValidateItems (selectedForValidation (classifiedBlockchain main pr)).

End Diff.

(** Keys for the sample runs: the address, the address on a network, the
    tag of an address on a network, the address within a project. *)
Definition sampleKey (d : Dimension) (r : BlockchainRow.t) : list string :=
  match d with
  | ProjectRelation => [BlockchainRow.project_slug r; BlockchainRow.address r]
  | Address => [BlockchainRow.address r]
  | Network => [BlockchainRow.address r; BlockchainRow.network r]
  | NetworkTag => [BlockchainRow.address r; BlockchainRow.network r; BlockchainRow.tag r]
  end.

Definition snapshotOf (artifacts : list BlockchainArtifact.t) : Snapshot.t :=
  Snapshot.mk
    [Project.mk "p1" "Project One" [] [CodeArtifact.mk (Some "https://github.com/p1/a")]
       [] artifacts]
    [].

(** Scenario C of the specification: an address gains the tag "deployer". *)
Definition scenarioMain : Snapshot.t :=
  snapshotOf [BlockchainArtifact.mk (Some "0xABC") "optimism" ["eoa"]].
Definition scenarioPr : Snapshot.t :=
  snapshotOf [BlockchainArtifact.mk (Some "0xABC") "optimism" ["eoa"; "deployer"]].

(** ** The rest of [index.ts]: export, initialisation and [validate-pr] *)

(** The line feed that [jsonlExport] writes after every item. *)
Definition LF : string := String (Ascii.ascii_of_nat 10) EmptyString.

Section Jsonl.

Context {T : Type}.

(** [JSON.stringify] on the items of the array. *)
Variable stringify : T → string.

(** What the loop of [jsonlExport] (lines 29-32) has written to the stream:
    for every item its JSON text, then a line feed. *)
Definition jsonlContent (arr : list T) : string :=
  foldl (λ written item,
           String.append (String.append written (stringify item)) LF)
    EmptyString arr.

(** [jsonlExport] (lines 26-40): how the promise settles, and the text of
    the file when the stream took the writes and closed without error;
    [closeError] is the [err] that [stream.close] hands to its callback.
    When the stream reports an error nothing is said about the file. *)
Definition jsonlExport (closeError : option Exn) (arr : list T)
  : Result unit * option string :=
  match closeError with
  | Some err => (Throw err, None)
  | None => (Ok tt, Some (jsonlContent arr))
  end.

End Jsonl.

(** Whether a text holds a line feed. *)
Fixpoint hasLF (s : string) : bool :=
  match s with
  | EmptyString => false
  | String c s' => Ascii.eqb c (Ascii.ascii_of_nat 10) || hasLF s'
  end.

(** The records of a newline-delimited file, as [read_json_auto] takes them
    one per line: [cur] is the part of the current line read so far. *)
Fixpoint splitLines (cur s : string) : list string :=
  match s with
  | EmptyString => match cur with EmptyString => [] | _ => [cur] end
  | String c s' =>
      if Ascii.eqb c (Ascii.ascii_of_nat 10) then cur :: splitLines EmptyString s'
      else splitLines (String.append cur (String c EmptyString)) s'
  end.

(** What the queries that [initialize] reads (lines 376-434) return. *)
Record QueryResults := mkQueryResults {
  artifacts_summary : list SummaryRow.t;
  changed_projects : list ProjectSummary.t;
  changed_blockchain_artifacts : list BlockchainStatus.t;
  changed_code_artifacts : list CodeStatus.t;
  changed_package_artifacts : list PackageStatus.t;
  changed_blockchain_artifacts_to_validate : list BlockchainValidationItem.t;
}.

(** How a REPL session started by [--repl] ends: the server emits [exit] or
    [SIGINT]. *)
Inductive ReplEvent := ReplExit | ReplSigint.

(** [initialize] from the point where the tables exist (lines 376-462): the
    summaries are built, the change summary is assembled, and with [--repl]
    the method waits for the session to end. *)
Definition initialize (repl : bool) (ev : ReplEvent) (q : QueryResults)
  : Result ChangeSummary.t :=
  let summaries := buildSummaries (artifacts_summary q) in
  let changes :=
    ChangeSummary.mk (changed_projects q) (artifactSummaries summaries)
      (changed_blockchain_artifacts q) (changed_code_artifacts q)
      (changed_package_artifacts q) (changed_blockchain_artifacts_to_validate q) in
  if repl then
    match ev with
    | ReplExit => Ok changes
    | ReplSigint => Throw (Error "SIGINT?")
    end
  else Ok changes.

(** [OSSDirectoryPullRequest.init] (lines 231-240): the constructor sets
    [this.validators = {}], then [initialize] runs. *)
Definition init (repl : bool) (ev : ReplEvent) (q : QueryResults)
  : M ChangeSummary.t := λ s,
  (initialize repl ev q,
   {| validators := ∅;
      validationErrors := validationErrors s;
      calls := calls s;
      comments := comments s |}).

(** [validatePR] (lines 570-573). *)
Definition validatePR (rpc : list (Call.t * Outcome) → Call.t → Outcome)
    (pr : Z) (env : Env) (repl : bool) (ev : ReplEvent) (q : QueryResults)
  : M unit :=
  let! changes := init repl ev q in
  validate rpc pr env changes.

(** What one row does to the entry of its type: [o] is the entry before. *)
Definition summaryStep (o : option Summary) (row : SummaryRow.t) : Summary :=
  let st := SummaryRow.status row in
  let n := SummaryRow.count row in
  match o with
  | None =>
      {| added := if String.eqb st "ADDED" then n else 0;
         removed := if String.eqb st "REMOVED" then n else 0;
         existing := if String.eqb st "EXISTING" then n else 0 |}
  | Some s =>
      if String.eqb st "ADDED" then set_added s n
      else if String.eqb (SummaryRow.type row) "REMOVED" then set_removed s n
      else set_existing s n
  end.

(** Sample inputs for the properties below. *)
Definition rowsRemovedFirst : list SummaryRow.t :=
  [ SummaryRow.mk "BLOCKCHAIN" "REMOVED" 2 1;
    SummaryRow.mk "CODE" "EXISTING" 7 7;
    SummaryRow.mk "BLOCKCHAIN" "ADDED" 3 2;
    SummaryRow.mk "BLOCKCHAIN" "EXISTING" 5 4 ].

Definition itemMessyTags : BlockchainValidationItem.t :=
  BlockchainValidationItem.mk "0xB" ["deployer"; "eoa"; "eoa"; "proxy"] ["optimism"].
Definition itemCleanTags : BlockchainValidationItem.t :=
  BlockchainValidationItem.mk "0xB" ["eoa"; "deployer"] ["optimism"].
Definition itemNoNetworks : BlockchainValidationItem.t :=
  BlockchainValidationItem.mk "0xC" ["eoa"] [].
Definition itemOtherTags : BlockchainValidationItem.t :=
  BlockchainValidationItem.mk "0xD" ["wallet"; "safe"] ["goerli"].

(** * Properties *)

(** ** Loops *)

Lemma bind_ext {A B} (m : M A) (k k' : A → M B) s :
  (∀ a s', k a s' = k' a s') → bind m k s = bind m k' s.
Proof. intros Hk. unfold bind. destruct (m s) as [[a|e] s']; auto. Qed.

Lemma forOf_ext {A} (l : list A) (f g : A → M unit) s :
  (∀ x s', f x s' = g x s') → forOf l f s = forOf l g s.
Proof.
  intros Hfg. revert s. induction l as [|x l IH]; intros s; cbn; [done|].
  unfold bind. rewrite Hfg. destruct (g x s) as [[[]|e] s']; auto.
Qed.

Lemma forOf_app {A} (l1 l2 : list A) (f : A → M unit) s :
  forOf (l1 ++ l2) f s = bind (forOf l1 f) (λ _, forOf l2 f) s.
Proof.
  revert s. induction l1 as [|x l1 IH]; intros s; [reflexivity|].
  cbn. unfold bind. destruct (f x s) as [[[]|e] s']; [|done].
  rewrite IH. reflexivity.
Qed.

Lemma forOf_bind {A B} (l : list A) (g : A → list B) (f : B → M unit) s :
  forOf (x ← l; g x) f s = forOf l (λ x, forOf (g x) f) s.
Proof.
  revert s. induction l as [|x l IH]; intros s; cbn; [done|].
  rewrite forOf_app. apply bind_ext. intros _ s'. apply IH.
Qed.

(** A throw inside a loop leaves it: the elements after are not visited. *)
Lemma forOf_throw {A} (l1 l2 : list A) (f : A → M unit) s e s' :
  forOf l1 f s = (Throw e, s') → forOf (l1 ++ l2) f s = (Throw e, s').
Proof. intros H. rewrite forOf_app. unfold bind. by rewrite H. Qed.

Lemma forOf_ok_app {A} (l1 l2 : list A) (f : A → M unit) s s' :
  forOf l1 f s = (Ok tt, s') → forOf (l1 ++ l2) f s = forOf l2 f s'.
Proof. intros H. rewrite forOf_app. unfold bind. by rewrite H. Qed.

(** The loop body is the sequence of its guarded blocks. *)
Lemma validateNetwork_flat rpc item network s :
  validateNetwork rpc item network s = forOf (attemptsOf item network) (check rpc) s.
Proof.
  unfold validateNetwork, attemptsOf, check.
  repeat case_bool_decide; cbn;
    unfold bind, getValidator, callPredicate, pushError, ret; cbn;
    destruct (validators s !! network) as [v|] eqn:Hv; cbn; try reflexivity;
    repeat (rewrite ?Hv;
            match goal with
            | |- context [rpc ?h ?c] => destruct (rpc h c) as [[]|]
            end; cbn);
    rewrite ?Hv; reflexivity.
Qed.

(** The nested loops visit the call expressions of [expectedAttempts], in
    that order. *)
Lemma validateItems_flat rpc items s :
  validateItems rpc items s = forOf (expectedAttempts items) (check rpc) s.
Proof.
  unfold validateItems, expectedAttempts.
  rewrite forOf_bind. apply forOf_ext. intros item s'.
  rewrite forOf_bind. apply forOf_ext. intros network s''.
  apply validateNetwork_flat.
Qed.

(** ** Runs of the call loop *)

Lemma extend_nil s : extend s [] = s.
Proof. destruct s. unfold extend. cbn. by rewrite !app_nil_r. Qed.

Lemma extend_app s evs1 evs2 :
  extend (extend s evs1) evs2 = extend s (evs1 ++ evs2).
Proof. unfold extend. cbn. by rewrite omap_app, !app_assoc. Qed.

(** What one guarded block does: it throws on a missing validator before
    any call is made; otherwise the call is made and recorded, a falsy answer
    is pushed, and a rejection is thrown on. *)
Lemma check_step rpc a s :
  check rpc a s =
  match validators s !! Attempt.network a with
  | None => (Throw (TypeError (predicateName (Attempt.predicate a))), s)
  | Some v =>
      let c := Call.mk (Attempt.network a) v (Attempt.predicate a) (Attempt.address a) in
      let o := rpc (calls s) c in
      (match o with
       | Resolved _ => Ok tt
       | Rejected reason => Throw (Rejection reason)
       end, extend s [(c, o)])
  end.
Proof.
  unfold check, bind, getValidator, callPredicate, pushError, ret, extend, failureOf.
  destruct (validators s !! Attempt.network a) as [v|]; [|done].
  cbn. destruct (rpc _ _) as [[]|reason]; cbn; by rewrite ?app_nil_r.
Qed.

Lemma forOf_check_run rpc exp s :
  ∃ evs,
    (forOf exp (check rpc) s).2 = extend s evs ∧
    answered rpc (validators s) (calls s) evs ∧
    runSpec exp s (forOf exp (check rpc) s).1 evs.
Proof.
  revert s. induction exp as [|a exp IH]; intros s.
  { exists []. cbn. by rewrite extend_nil. }
  cbn [forOf]. unfold bind. rewrite check_step.
  destruct (validators s !! Attempt.network a) as [v|] eqn:Hv.
  2:{ exists []. cbn. rewrite extend_nil. repeat split; [].
      exists a, exp. by repeat split. }
  cbn zeta.
  set (c := Call.mk (Attempt.network a) v (Attempt.predicate a) (Attempt.address a)).
  assert (Hc : attemptOf c = a) by (by destruct a).
  destruct (rpc (calls s) c) as [b|reason] eqn:Ho.
  - destruct (IH (extend s [(c, Resolved b)])) as (evs & Hst & Hans & Hspec).
    exists ((c, Resolved b) :: evs). rewrite Hst, extend_app. split; [done|].
    split; [cbn; by rewrite Hv, Ho|].
    destruct (forOf exp (check rpc) (extend s [(c, Resolved b)])) as [[[]|[m|name|reason]] s'];
      cbn in Hspec |- *.
    + destruct Hspec as [<- Hres]. rewrite Hc. split; [done|].
      constructor; [by exists b|done].
    + done.
    + destruct Hspec as (a' & rest & -> & Hnone & -> & Hres).
      exists a', rest. rewrite Hc. repeat split; [done|].
      constructor; [by exists b|done].
    + destruct Hspec as (evs0 & c' & rest & -> & Hres & ->).
      exists ((c, Resolved b) :: evs0), c', rest. rewrite Hc. repeat split.
      constructor; [by exists b|done].
  - exists [(c, Rejected reason)]. cbn. rewrite Hv, Ho. repeat split.
    exists [], c, exp. cbn. by rewrite Hc.
Qed.

Lemma validateItems_run rpc items s :
  ∃ evs,
    (validateItems rpc items s).2 = extend s evs ∧
    answered rpc (validators s) (calls s) evs ∧
    runSpec (expectedAttempts items) s (validateItems rpc items s).1 evs.
Proof. rewrite validateItems_flat. apply forOf_check_run. Qed.

Lemma answered_app rpc vs h evs1 evs2 :
  answered rpc vs h (evs1 ++ evs2) ↔
  answered rpc vs h evs1 ∧ answered rpc vs (h ++ evs1) evs2.
Proof.
  revert h. induction evs1 as [|ev evs1 IH]; intros h; cbn.
  - rewrite app_nil_r. tauto.
  - rewrite IH, <- app_assoc. cbn. tauto.
Qed.

(** Which call expressions the loops go through: one per item, per network
    entry of the item, per predicate whose tag the item carries. *)
Lemma elem_of_attemptsOf a item network :
  a ∈ attemptsOf item network ↔
  Attempt.network a = network ∧
  Attempt.address a = BlockchainValidationItem.address item ∧
  tagOf (Attempt.predicate a) ∈ BlockchainValidationItem.tags item.
Proof.
  unfold attemptsOf. rewrite !elem_of_app. split.
  - intros [H|[H|H]]; case_bool_decide; try (by apply elem_of_nil in H);
      apply list_elem_of_singleton in H; subst a; cbn; done.
  - destruct a as [n [] addr]; cbn; intros (-> & -> & Htag).
    + left. rewrite bool_decide_eq_true_2 by done. by apply list_elem_of_singleton.
    + right; left. rewrite bool_decide_eq_true_2 by done. by apply list_elem_of_singleton.
    + right; right. rewrite bool_decide_eq_true_2 by done. by apply list_elem_of_singleton.
Qed.

Lemma elem_of_expectedAttempts a items :
  a ∈ expectedAttempts items ↔
  ∃ item, item ∈ items ∧
    Attempt.network a ∈ BlockchainValidationItem.networks item ∧
    Attempt.address a = BlockchainValidationItem.address item ∧
    tagOf (Attempt.predicate a) ∈ BlockchainValidationItem.tags item.
Proof.
  unfold expectedAttempts. rewrite list_elem_of_bind. split.
  - intros (item & Ha & Hitem). apply list_elem_of_bind in Ha as (n & Ha & Hn).
    apply elem_of_attemptsOf in Ha as (<- & ? & ?). by exists item.
  - intros (item & Hitem & Hn & Haddr & Htag). exists item. split; [|done].
    apply list_elem_of_bind. exists (Attempt.network a). split; [|done].
    by apply elem_of_attemptsOf.
Qed.

(** ** A network without a validator *)

Lemma validateNetwork_unregistered rpc item network s :
  validators s !! network = None →
  validateNetwork rpc item network s =
  match firstCheck (BlockchainValidationItem.tags item) with
  | Some p => (Throw (TypeError (predicateName p)), s)
  | None => (Ok tt, s)
  end.
Proof.
  intros Hv. unfold validateNetwork, firstCheck.
  repeat case_bool_decide; cbn;
    unfold bind, getValidator, callPredicate, ret; cbn; rewrite ?Hv; reflexivity.
Qed.

(** C2, as the code has it.  When the loops reach a network for which no
    validator is registered, nothing is recorded.  If the item carries one of
    the tags [eoa], [contract], [deployer], reading the predicate off the
    missing validator throws a [TypeError] and the run ends there: the
    networks and items after it are not processed.  If the item carries none
    of them, the network is passed over and the run goes on from the same
    state. *)
Theorem unregistered_network_throws rpc items1 item items2 ns1 n ns2 s s1 s2 :
  validateItems rpc items1 s = (Ok tt, s1) →
  BlockchainValidationItem.networks item = ns1 ++ n :: ns2 →
  forOf ns1 (validateNetwork rpc item) s1 = (Ok tt, s2) →
  validators s2 !! n = None →
  validateItems rpc (items1 ++ item :: items2) s =
  match firstCheck (BlockchainValidationItem.tags item) with
  | Some p => (Throw (TypeError (predicateName p)), s2)
  | None =>
      bind (forOf ns2 (validateNetwork rpc item))
           (λ _, validateItems rpc items2) s2
  end.
Proof.
  intros H1 Hns H2 Hv. unfold validateItems in *.
  rewrite (forOf_ok_app _ _ _ _ _ H1). cbn [forOf]. rewrite Hns.
  unfold bind at 1. rewrite (forOf_ok_app _ _ _ _ _ H2). cbn [forOf].
  unfold bind at 1. rewrite (validateNetwork_unregistered _ _ _ _ Hv).
  destruct (firstCheck _); reflexivity.
Qed.

Lemma unregistered_network_throws_witness :
  validateItems (chainAlways false) ([itemB] ++ itemGoerli :: [itemA]) loadedPullRequest =
  (Throw (TypeError "isEOA"), (validateItems (chainAlways false) [itemB] loadedPullRequest).2).
Proof.
  apply (unregistered_network_throws (chainAlways false) [itemB] itemGoerli [itemA]
           [] "goerli" [] loadedPullRequest
           (validateItems (chainAlways false) [itemB] loadedPullRequest).2
           (validateItems (chainAlways false) [itemB] loadedPullRequest).2).
  - reflexivity.
  - reflexivity.
  - reflexivity.
  - vm_compute. reflexivity.
Defined.

(** C2, as claimed, fails: with validators for optimism and mainnet only, an
    item on goerli ends the run with a [TypeError]; nothing is recorded for
    it, and the item after it, which alone yields a failure, is never
    validated. *)
Lemma unsupported_network_aborts_run :
  let run := validate (chainAlways false) 7 exampleEnv
               (changesWith [itemGoerli; itemB]) newPullRequest in
  let alone := validate (chainAlways false) 7 exampleEnv
                 (changesWith [itemB]) newPullRequest in
  run.1 = Throw (TypeError "isEOA") ∧
  calls run.2 = [] ∧ validationErrors run.2 = [] ∧ comments run.2 = [] ∧
  alone.1 = Ok tt ∧
  validationErrors alone.2 =
    [ValidationError.mk "0xB" "is not an EOA"; ValidationError.mk "0xB" "is not an EOA"].
Proof. vm_compute. repeat split. Qed.

(** ** The failures a run collects *)

(** A run in which nothing throws: every network reached has a validator
    and every call resolves. *)
Lemma validateItems_ok rpc items s :
  (∀ h c, ∃ b, rpc h c = Resolved b) →
  Forall (λ a, is_Some (validators s !! Attempt.network a)) (expectedAttempts items) →
  ∃ evs,
    validateItems rpc items s = (Ok tt, extend s evs) ∧
    (attemptOf ∘ fst) <$> evs = expectedAttempts items ∧
    answered rpc (validators s) (calls s) evs.
Proof.
  intros Hres Hreg.
  destruct (validateItems_run rpc items s) as (evs & Hst & Hans & Hspec).
  destruct (validateItems rpc items s) as [r s'] eqn:Hrun. cbn in *. subst s'.
  exists evs. destruct r as [[]|[m|name|reason]]; cbn in Hspec.
  - by destruct Hspec as [-> _].
  - done.
  - destruct Hspec as (a & rest & Hexp & Hnone & _). exfalso.
    rewrite Hexp in Hreg. apply Forall_app in Hreg as [_ Hreg].
    apply Forall_cons in Hreg as [[v Hv] _]. congruence.
  - destruct Hspec as (evs0 & c & rest & -> & _ & _). exfalso.
    apply answered_app in Hans as [_ Hans]. cbn in Hans.
    destruct Hans as (_ & Hrej & _). destruct (Hres (calls s ++ evs0) c) as [b Hb].
    congruence.
Qed.

(** C3, as the code has it.  When every network an item is checked on has a
    validator and every predicate call resolves, the loops go through all
    items: every call expression of every item is evaluated, in order, the
    run returns normally whether or not failures were found, and the list
    collected holds one failure for each call that resolved to false. *)
Theorem validateItems_collects_all_failures rpc items s :
  (∀ h c, ∃ b, rpc h c = Resolved b) →
  Forall (λ a, is_Some (validators s !! Attempt.network a)) (expectedAttempts items) →
  ∃ evs,
    validateItems rpc items s = (Ok tt, extend s evs) ∧
    (attemptOf ∘ fst) <$> evs = expectedAttempts items ∧
    validationErrors (validateItems rpc items s).2 =
      validationErrors s ++ omap failureOf evs.
Proof.
  intros Hres Hreg.
  destruct (validateItems_ok rpc items s Hres Hreg) as (evs & Hrun & Hexp & _).
  exists evs. by rewrite Hrun.
Qed.

Lemma validateItems_collects_all_failures_witness :
  ∃ evs,
    validateItems (chainAlways false) [itemB; itemA] loadedPullRequest =
      (Ok tt, extend loadedPullRequest evs) ∧
    (attemptOf ∘ fst) <$> evs = expectedAttempts [itemB; itemA] ∧
    validationErrors (validateItems (chainAlways false) [itemB; itemA] loadedPullRequest).2 =
      validationErrors loadedPullRequest ++ omap failureOf evs.
Proof.
  apply (validateItems_collects_all_failures (chainAlways false) [itemB; itemA]
           loadedPullRequest).
  - intros h c. exists false. reflexivity.
  - repeat constructor; eexists; vm_compute; reflexivity.
Defined.

(** C3, as claimed, fails: a rejected validator call for the first item ends
    the run with that rejection; the second item, which alone yields two
    failures, is not processed and no failure list comes back. *)
Lemma validator_error_aborts_run :
  let run := validateItems chainRejecting [itemA; itemB] loadedPullRequest in
  let alone := validateItems chainRejecting [itemB] loadedPullRequest in
  run.1 = Throw (Rejection "timeout") ∧
  (attemptOf ∘ fst) <$> calls run.2 = [Attempt.mk "optimism" isEOA "0xA"] ∧
  validationErrors run.2 = [] ∧
  alone.1 = Ok tt ∧
  validationErrors alone.2 =
    [ValidationError.mk "0xB" "is not an EOA"; ValidationError.mk "0xB" "is not an EOA"].
Proof. vm_compute. repeat split. Qed.

(** C4, as the code has it.  In every run of the loops the predicates called
    are those of the call expressions of [expectedAttempts], in order: all of
    them when the run returns, an initial part when it throws.  A call
    expression belongs to an item, one of its network entries and a predicate
    whose tag the item carries.  The list collected grows by exactly one
    failure for each call that resolved to false and by nothing else; a
    failure holds the address and the reason, and no network. *)
Theorem validateItems_calls_and_failures rpc items s :
  (∀ a, a ∈ expectedAttempts items ↔
        ∃ item, item ∈ items ∧
          Attempt.network a ∈ BlockchainValidationItem.networks item ∧
          Attempt.address a = BlockchainValidationItem.address item ∧
          tagOf (Attempt.predicate a) ∈ BlockchainValidationItem.tags item) ∧
  ∃ evs,
    calls (validateItems rpc items s).2 = calls s ++ evs ∧
    validationErrors (validateItems rpc items s).2 =
      validationErrors s ++ omap failureOf evs ∧
    (attemptOf ∘ fst) <$> evs `prefix_of` expectedAttempts items ∧
    ((validateItems rpc items s).1 = Ok tt →
     (attemptOf ∘ fst) <$> evs = expectedAttempts items).
Proof.
  split; [intros a; apply elem_of_expectedAttempts|].
  destruct (validateItems_run rpc items s) as (evs & Hst & _ & Hspec).
  exists evs. rewrite Hst. cbn. repeat split.
  - destruct (validateItems rpc items s).1 as [[]|[m|name|reason]]; cbn in Hspec.
    + destruct Hspec as [-> _]. done.
    + done.
    + destruct Hspec as (a & rest & -> & _). by eexists.
    + destruct Hspec as (evs0 & c & rest & _ & _ & ->). by eexists.
  - intros Hok. rewrite Hok in Hspec. by destruct Hspec as [-> _].
Qed.

(** C4, as claimed, fails on the network: the same address failing the same
    predicate on optimism and on mainnet leaves the same failure record, so
    no reading of a failure gives back the network of its call. *)
Lemma failure_carries_no_network :
  let onOptimism := validateItems (chainAlways false) [itemOnOptimism] loadedPullRequest in
  let onMainnet := validateItems (chainAlways false) [itemOnMainnet] loadedPullRequest in
  (Call.network ∘ fst) <$> calls onOptimism.2 = ["optimism"] ∧
  (Call.network ∘ fst) <$> calls onMainnet.2 = ["mainnet"] ∧
  validationErrors onOptimism.2 = [ValidationError.mk "0xDEF" "is not a Contract"] ∧
  validationErrors onMainnet.2 = [ValidationError.mk "0xDEF" "is not a Contract"] ∧
  ¬ ∃ networkOf : ValidationError.t → string,
      networkOf <$> validationErrors onOptimism.2 = ["optimism"] ∧
      networkOf <$> validationErrors onMainnet.2 = ["mainnet"].
Proof.
  vm_compute. repeat split. intros (networkOf & H1 & H2). congruence.
Qed.

(** ** Order and repetition in the failure list *)

Lemma answered_failures ans vs h evs :
  answered (λ _, ans) vs h evs →
  omap failureOf evs = ((attemptOf ∘ fst) <$> evs) ≫= attemptFailure ans vs.
Proof.
  revert h. induction evs as [|[c o] evs IH]; intros h; [done|].
  cbn [answered]. intros (Hv & Ho & Hrest). cbn in Hv, Ho.
  rewrite fmap_cons, bind_cons, <- (IH _ Hrest).
  unfold attemptFailure, attemptOf, failureOf. cbn. rewrite Hv.
  destruct c as [n v p addr]. cbn in *. rewrite <- Ho.
  destruct o as [[]|reason]; reflexivity.
Qed.

(** C6, as the code has it.  Every predicate call is awaited before the next
    one is made, so the calls complete in one order only.  On a chain whose
    answers do not depend on earlier calls, the list collected is determined
    by the items: the failures of the call expressions in processing order
    (items, then the networks of an item, then [eoa], [contract],
    [deployer]), all of them when the run returns and an initial part when it
    throws.  Nothing removes repeated entries or sorts the list. *)
Theorem validateItems_failures_in_call_order ans items s :
  let run := validateItems (λ _, ans) items s in
  let all := expectedAttempts items ≫= attemptFailure ans (validators s) in
  validationErrors run.2 `prefix_of` validationErrors s ++ all ∧
  (run.1 = Ok tt → validationErrors run.2 = validationErrors s ++ all).
Proof.
  cbn zeta.
  destruct (validateItems_run (λ _, ans) items s) as (evs & Hst & Hans & Hspec).
  rewrite Hst. cbn [extend validationErrors].
  rewrite (answered_failures _ _ _ _ Hans). split.
  - apply prefix_app.
    destruct (validateItems _ items s).1 as [[]|[m|name|reason]]; cbn in Hspec.
    + destruct Hspec as [-> _]. done.
    + done.
    + destruct Hspec as (a & rest & -> & _). rewrite bind_app. by eexists.
    + destruct Hspec as (evs0 & c & rest & _ & _ & ->). rewrite bind_app. by eexists.
  - intros Hok. rewrite Hok in Hspec. by destruct Hspec as [-> _].
Qed.

(** C6, as claimed, fails: an address failing [isEOA] on two networks is
    listed twice, and the failures of [0xB] come before the one of [0xA]
    because its item comes first. *)
Lemma failure_list_not_a_sorted_set :
  let out := validationErrors
               (validateItems (chainAlways false) [itemB; itemA] loadedPullRequest).2 in
  out = [ValidationError.mk "0xB" "is not an EOA";
         ValidationError.mk "0xB" "is not an EOA";
         ValidationError.mk "0xA" "is not an EOA"] ∧
  ¬ NoDup out ∧ ¬ Sorted failure_le out.
Proof.
  cbn zeta.
  assert (Hout : validationErrors
            (validateItems (chainAlways false) [itemB; itemA] loadedPullRequest).2 =
          [ValidationError.mk "0xB" "is not an EOA";
           ValidationError.mk "0xB" "is not an EOA";
           ValidationError.mk "0xA" "is not an EOA"]) by (vm_compute; reflexivity).
  rewrite Hout. split; [done|]. split.
  - intros Hnd. apply NoDup_cons in Hnd as [Hin _]. apply Hin. left.
  - intros Hs. apply Sorted_inv in Hs as [Hs _]. apply Sorted_inv in Hs as [_ Hhd].
    apply HdRel_inv in Hhd. vm_compute in Hhd. exact Hhd.
Qed.

(** ** [validate] as a whole *)

Lemma validate_unfold rpc pr env changes s :
  validate rpc pr env changes s =
  match loadValidators env s with
  | (Throw e, s1) => (Throw e, s1)
  | (Ok _, s1) =>
      match validateItems rpc (ChangeSummary.toValidate_blockchain changes)
              (resetErrors s1).2 with
      | (Throw e, s2) => (Throw e, s2)
      | (Ok _, s2) =>
          if negb (Nat.eqb (length (validationErrors s2)) 0) then
            leaveCommentOnPr pr "validation-errors.md"
              (ValidationErrorsParams (validationErrors s2)) s2
          else (Ok tt, s2)
      end
  end.
Proof.
  unfold validate, bind. destruct (loadValidators env s) as [[[]|e] s1]; [|done].
  cbn. destruct (validateItems _ _ _) as [[[]|e] s2]; [|done].
  unfold getErrors. by destruct (negb _).
Qed.

Lemma loadValidators_cases env s :
  loadValidators env s =
  match truthy (OPTIMISM_RPC_URL env), truthy (MAINNET_RPC_URL env) with
  | Some optimismRpc, Some mainnetRpc =>
      (Ok tt,
       mkSt (<["mainnet" := mkValidator EthereumValidator mainnetRpc]>
               (<["optimism" := mkValidator OptimismValidator optimismRpc]> (validators s)))
            (validationErrors s) (calls s) (comments s))
  | _, _ => (Throw (Error "RPC URLs are required to do validation"), s)
  end.
Proof. reflexivity. Qed.

(** A variable counts as set when it has a value other than the empty
    string. *)
Lemma truthy_None v : truthy v = None ↔ v = None ∨ v = Some "".
Proof.
  destruct v as [x|]; cbn; [|by split; [left|]].
  destruct (String.eqb x "") eqn:Hx.
  - apply String.eqb_eq in Hx as ->. by split; [right|].
  - apply String.eqb_neq in Hx. split; [done|]. intros [?|?]; congruence.
Qed.

(** The loops and the comment leave the registered validators as they are. *)
Lemma validate_validators rpc pr env changes s :
  validators (validate rpc pr env changes s).2 = validators (loadValidators env s).2.
Proof.
  rewrite validate_unfold. destruct (loadValidators env s) as [[[]|e] s1]; [|done].
  destruct (validateItems_run rpc (ChangeSummary.toValidate_blockchain changes)
              (resetErrors s1).2) as (evs & Hst & _).
  destruct (validateItems _ _ _) as [[[]|e] s2]; cbn in Hst; subst s2; [|done].
  by destruct (negb _).
Qed.

(** C9.  [validate] on a freshly constructed pull request: unless both RPC
    URLs are set, it throws "RPC URLs are required to do validation" and
    leaves the state as it was, so no predicate has been called and no
    comment left; when both are set, the validators it runs with are the
    Optimism validator under "optimism" and the Ethereum validator under
    "mainnet", and no other. *)
Theorem validate_requires_rpc_urls rpc pr env changes errs cs cms :
  let s := mkSt ∅ errs cs cms in
  let run := validate rpc pr env changes s in
  match truthy (OPTIMISM_RPC_URL env), truthy (MAINNET_RPC_URL env) with
  | Some optimismRpc, Some mainnetRpc =>
      validators run.2 =
        <["mainnet" := mkValidator EthereumValidator mainnetRpc]>
          (<["optimism" := mkValidator OptimismValidator optimismRpc]> ∅) ∧
      dom (validators run.2) = ({["optimism"; "mainnet"]} : gset string)
  | _, _ =>
      run = (Throw (Error "RPC URLs are required to do validation"), s)
  end.
Proof.
  cbn zeta.
  pose proof (validate_validators rpc pr env changes (mkSt ∅ errs cs cms)) as Hv.
  pose proof (validate_unfold rpc pr env changes (mkSt ∅ errs cs cms)) as Hu.
  rewrite loadValidators_cases in Hv, Hu.
  destruct (truthy (OPTIMISM_RPC_URL env)) as [o|], (truthy (MAINNET_RPC_URL env)) as [m|];
    try exact Hu.
  cbn in Hv. rewrite Hv. split; [done|].
  rewrite !dom_insert_L, dom_empty_L. set_solver.
Qed.

Lemma answered_all_true rpc vs h evs :
  (∀ h' c, rpc h' c = Resolved true) →
  answered rpc vs h evs → omap failureOf evs = [].
Proof.
  intros Htrue. revert h. induction evs as [|[c o] evs IH]; intros h; [done|].
  cbn [answered]. intros (_ & Ho & Hrest). cbn in Ho.
  cbn. unfold failureOf at 1. cbn. rewrite Ho, Htrue. by apply (IH _ Hrest).
Qed.

(** C10, as the code has it.  When [validate] returns, it has left exactly
    one comment, from the template [validation-errors.md] with the failures
    collected, if that list is not empty, and none if it is empty; when it
    throws on the way to that point, it has left none, whatever it had
    collected.  With both RPC URLs set, every network of the items among the
    registered ones and every predicate resolving to true, it returns with an
    empty failure list and no comment. *)
Theorem validate_comments_iff_failures rpc pr env changes s :
  let run := validate rpc pr env changes s in
  match run.1 with
  | Ok _ =>
      comments run.2 =
        comments s ++
        match validationErrors run.2 with
        | [] => []
        | _ :: _ =>
            [mkComment pr "validation-errors.md"
               (ValidationErrorsParams (validationErrors run.2))]
        end
  | Throw _ => comments run.2 = comments s
  end ∧
  ((∀ h c, rpc h c = Resolved true) →
   is_Some (truthy (OPTIMISM_RPC_URL env)) →
   is_Some (truthy (MAINNET_RPC_URL env)) →
   Forall (λ a, Attempt.network a ∈ ["optimism"; "mainnet"])
     (expectedAttempts (ChangeSummary.toValidate_blockchain changes)) →
   run.1 = Ok tt ∧ validationErrors run.2 = [] ∧ comments run.2 = comments s).
Proof.
  cbn zeta. rewrite validate_unfold, loadValidators_cases. split.
  - destruct (truthy (OPTIMISM_RPC_URL env)) as [o|], (truthy (MAINNET_RPC_URL env)) as [m|];
      try done.
    match goal with |- context [validateItems rpc ?items ?s1] =>
      destruct (validateItems_run rpc items s1) as (evs & Hst & _);
      destruct (validateItems rpc items s1) as [[[]|e] s2] end;
      cbn in Hst; subst s2; [|done].
    unfold extend, leaveCommentOnPr. cbn.
    destruct (omap failureOf evs); cbn; [by rewrite app_nil_r|done].
  - intros Htrue [o ->] [m ->] Hnet.
    match goal with |- context [validateItems rpc ?items ?s1] =>
      destruct (validateItems_ok rpc items s1) as (evs & Hrun & _ & Hans) end.
    + intros h c. exists true. apply Htrue.
    + eapply Forall_impl; [exact Hnet|]. intros a Ha. cbn in Ha |- *.
      apply elem_of_cons in Ha as [->|Ha].
      { rewrite lookup_insert_ne by done. rewrite lookup_insert_eq. by eexists. }
      apply list_elem_of_singleton in Ha as ->. rewrite lookup_insert_eq. by eexists.
    + rewrite Hrun. unfold extend. cbn.
      rewrite (answered_all_true _ _ _ _ Htrue Hans). done.
Qed.

(** C10, as claimed, fails in both of its parts.  Two failures are collected
    for [0xB], then the call for [0xA] rejects: the list is not empty and no
    comment is left.  And on an item for goerli no predicate is called at
    all, so every predicate called has resolved to true, yet the run ends in
    a [TypeError]. *)
Lemma validate_failures_without_comment :
  let run := validate chainRejecting 7 exampleEnv (changesWith [itemB; itemA])
               newPullRequest in
  let onGoerli := validate (chainAlways true) 7 exampleEnv (changesWith [itemGoerli])
                    newPullRequest in
  run.1 = Throw (Rejection "timeout") ∧
  validationErrors run.2 =
    [ValidationError.mk "0xB" "is not an EOA"; ValidationError.mk "0xB" "is not an EOA"] ∧
  comments run.2 = [] ∧
  Forall (λ ev, ev.2 = Resolved true) (calls onGoerli.2) ∧
  onGoerli.1 = Throw (TypeError "isEOA").
Proof. vm_compute. repeat split. constructor. Qed.

Lemma validate_comments_iff_failures_witness :
  let run := validate (chainAlways true) 7 exampleEnv (changesWith [itemB; itemA])
               newPullRequest in
  run.1 = Ok tt ∧ validationErrors run.2 = [] ∧ comments run.2 = comments newPullRequest.
Proof.
  apply (validate_comments_iff_failures (chainAlways true) 7 exampleEnv
           (changesWith [itemB; itemA]) newPullRequest).
  - intros h c. reflexivity.
  - eexists. reflexivity.
  - eexists. reflexivity.
  - repeat constructor.
Defined.

(** ** The summaries of [initialize] *)

Lemma foldl_invariant {A B} (P : A → Prop) (Q : B → Prop) (f : A → B → A) l a :
  (∀ a b, P a → Q b → P (f a b)) → Forall Q l → P a → P (foldl f a l).
Proof.
  intros Hstep Hl. revert a. induction Hl as [|b l Hb Hl IH]; intros a Ha; [done|].
  cbn. apply IH. by apply Hstep.
Qed.

(** Rows that are all EXISTING leave [added] and [removed] at zero in every
    entry of [summaries]. *)
Lemma buildSummaries_existing_rows rows ty sm :
  Forall (λ r, SummaryRow.status r = "EXISTING" ∧ SummaryRow.type r ≠ "REMOVED") rows →
  buildSummaries rows !! ty = Some sm → added sm = 0 ∧ removed sm = 0.
Proof.
  intros Hrows. revert ty sm. unfold buildSummaries.
  apply (foldl_invariant
           (λ m : gmap string Summary, ∀ ty sm, m !! ty = Some sm → added sm = 0 ∧ removed sm = 0)
           (λ r, SummaryRow.status r = "EXISTING" ∧ SummaryRow.type r ≠ "REMOVED")
           summariesStep rows ∅); [|done|].
  - intros m r Hm [Hst Hty] ty sm. unfold summariesStep. rewrite Hst. cbn.
    apply String.eqb_neq in Hty. rewrite Hty.
    destruct (m !! SummaryRow.type r) as [s0|] eqn:Hs0.
    + destruct (decide (SummaryRow.type r = ty)) as [Heq|Hne].
      * rewrite Heq, lookup_insert_eq. intros [= <-]. cbn.
        apply (Hm (SummaryRow.type r)), Hs0.
      * rewrite lookup_insert_ne by done. apply Hm.
    + destruct (decide (SummaryRow.type r = ty)) as [Heq|Hne].
      * rewrite Heq, lookup_insert_eq. by intros [= <-].
      * rewrite lookup_insert_ne by done. apply Hm.
  - intros ty sm. by rewrite lookup_empty.
Qed.

(** C1 fails on the code as the specification's design note says: a REMOVED
    row that is not the first row of its type goes through the [else] branch,
    whose test reads [row.type] where the first branch reads [row.status], and
    its count lands in [existing].  With 3 added and 2 removed blockchain rows
    reported, the summary says 3 added, 0 removed, 2 existing. *)
Theorem summaries_removed_row_misrouted :
  reportedCount exampleSummaryRows "BLOCKCHAIN" "ADDED" = 3 ∧
  reportedCount exampleSummaryRows "BLOCKCHAIN" "REMOVED" = 2 ∧
  reportedCount exampleSummaryRows "BLOCKCHAIN" "EXISTING" = 0 ∧
  blockchain (artifactSummaries (buildSummaries exampleSummaryRows)) =
    Some {| added := 3; removed := 0; existing := 2 |}.
Proof. vm_compute. repeat split. Qed.

(** ** The counts of [list] *)

(** C8.  [list] leaves one comment from the template [list-changes.md] whose
    project counts are: added, the length of [changes.projects]; removed, 0;
    unchanged, the number of rows the [unchanged_projects] query returned.
    Neither the statuses of the projects nor the [total] of the rows enter. *)
Theorem listChanges_project_counts pr unchangedProjects changes s :
  listChanges pr unchangedProjects changes s =
  (Ok tt,
   mkSt (validators s) (validationErrors s) (calls s)
     (comments s ++
      [mkComment pr "list-changes.md"
         (ListChangesParams
            {| projects_added := Z.of_nat (length (ChangeSummary.projects changes));
               projects_removed := 0;
               projects_unchanged := Z.of_nat (length unchangedProjects) |}
            (ChangeSummary.summary changes))])).
Proof.
  unfold listChanges, leaveCommentOnPr.
  destruct unchangedProjects as [|row rows]; reflexivity.
Qed.

(** One [unchanged_projects] row with [total = 42] is reported as one
    unchanged project. *)
Example listChanges_counts_rows :
  comments (listChanges 7 [mkUnchangedProjects 42] (changesWith []) newPullRequest).2 =
  [mkComment 7 "list-changes.md"
     (ListChangesParams (mkProjectCounts 0 0 1) (mkArtifactSummaries None None None))].
Proof. reflexivity. Qed.

(** ** The diff of two snapshots *)

Lemma statusOfKey_same {K} `{EqDecision K} (Ks : list K) k :
  k ∈ Ks → statusOfKey Ks Ks k = EXISTING.
Proof. intros Hk. unfold statusOfKey. by rewrite !decide_True. Qed.

Lemma classify_same {K R} `{EqDecision K, EqDecision R} (rows : list R)
    (keyFn : R → K) r :
  r ∈ classify rows rows keyFn → r.2 = EXISTING.
Proof.
  unfold classify. intros (x & -> & Hx)%list_elem_of_fmap.
  apply elem_of_remove_dups, elem_of_app in Hx. cbn.
  apply statusOfKey_same, list_elem_of_fmap_2. tauto.
Qed.

Lemma classify_covers {K R} `{EqDecision K, EqDecision R} (rows : list R)
    (keyFn : R → K) x :
  x ∈ rows → (x, EXISTING) ∈ classify rows rows keyFn.
Proof.
  intros Hx. unfold classify. apply list_elem_of_fmap. exists x. split.
  - by rewrite statusOfKey_same by by apply list_elem_of_fmap_2.
  - apply elem_of_remove_dups, elem_of_app. by left.
Qed.

Lemma elem_of_summaryRows ty rows r :
  r ∈ summaryRows ty rows →
  SummaryRow.type r = ty ∧ ∃ x, (x, SummaryRow.status r) ∈ rows.
Proof.
  unfold summaryRows. intros (st & Hr & _)%list_elem_of_bind.
  destruct (filter _ rows) as [|[x0 st0] group] eqn:Hgroup; [by apply elem_of_nil in Hr|].
  apply list_elem_of_singleton in Hr as ->. cbn. split; [done|].
  assert ((x0, st0) ∈ filter (λ r : string * string, r.2 = statusName st) rows) as Hin
    by (rewrite Hgroup; left).
  apply list_elem_of_filter in Hin as [Hst Hin]. cbn in Hst. subst st0. by exists x0.
Qed.

Section DiffProperties.

Context {K : Type} `{EqDecision K}.
Variable blockchainKey : Dimension → BlockchainRow.t → K.
Variable summaryDimension : Dimension.

Lemma classifyBlockchain_same rows r d :
  r ∈ classifyBlockchain blockchainKey rows rows → statusAt d r = "EXISTING".
Proof.
  unfold classifyBlockchain. intros (x & -> & Hx)%list_elem_of_fmap.
  apply elem_of_remove_dups, elem_of_app in Hx.
  assert (x ∈ rows) as Hin by tauto.
  destruct d; cbn; rewrite statusOfKey_same; auto using list_elem_of_fmap_2.
Qed.

Lemma classifyBlockchain_covers rows x :
  x ∈ rows →
  BlockchainStatus.mk (BlockchainRow.project_slug x) (BlockchainRow.address x)
    (BlockchainRow.tag x) (BlockchainRow.network x)
    "EXISTING" "EXISTING" "EXISTING" "EXISTING"
  ∈ classifyBlockchain blockchainKey rows rows.
Proof.
  intros Hx. unfold classifyBlockchain. apply list_elem_of_fmap. exists x. split.
  - by rewrite !statusOfKey_same by by apply list_elem_of_fmap_2.
  - apply elem_of_remove_dups, elem_of_app. by left.
Qed.

Lemma artifactsSummary_same S :
  Forall (λ r, SummaryRow.status r = "EXISTING" ∧ SummaryRow.type r ≠ "REMOVED")
    (artifactsSummary blockchainKey summaryDimension S S).
Proof.
  apply Forall_forall. intros r. unfold artifactsSummary. rewrite !elem_of_app.
  intros [Hr|[Hr|Hr]]; apply elem_of_summaryRows in Hr as [Hty (x & Hx)];
    rewrite Hty; (split; [|done]);
    apply list_elem_of_fmap in Hx as (y & Heq & Hy); injection Heq as _ ->.
  - exact (classifyBlockchain_same _ _ _ Hy).
  - apply classify_same in Hy. by rewrite Hy.
  - apply classify_same in Hy. by rewrite Hy.
Qed.

(** C5.  The diff of a snapshot against itself: every project, code,
    package and blockchain row of the snapshot is classified, and every
    classified row is EXISTING (a blockchain row in each of its four
    statuses); every summary that [initialize] then builds for an artifact
    type has [added = 0] and [removed = 0]. *)
Theorem diff_same_snapshot_all_existing (S : Snapshot.t) :
  (∀ r, r ∈ classifiedProjects S S → r.2 = EXISTING) ∧
  (∀ r, r ∈ classifiedCode S S → r.2 = EXISTING) ∧
  (∀ r, r ∈ classifiedPackage S S → r.2 = EXISTING) ∧
  (∀ r d, r ∈ classifiedBlockchain blockchainKey S S → statusAt d r = "EXISTING") ∧
  (∀ x, x ∈ projectRows S → (x, EXISTING) ∈ classifiedProjects S S) ∧
  (∀ x, x ∈ codeRows S → (x, EXISTING) ∈ classifiedCode S S) ∧
  (∀ x, x ∈ packageRows S → (x, EXISTING) ∈ classifiedPackage S S) ∧
  (∀ x, x ∈ blockchainRows S →
        BlockchainStatus.mk (BlockchainRow.project_slug x) (BlockchainRow.address x)
          (BlockchainRow.tag x) (BlockchainRow.network x)
          "EXISTING" "EXISTING" "EXISTING" "EXISTING"
        ∈ classifiedBlockchain blockchainKey S S) ∧
  (∀ ty sm,
     buildSummaries (artifactsSummary blockchainKey summaryDimension S S) !! ty = Some sm →
     added sm = 0 ∧ removed sm = 0) ∧
  (∀ sm,
     blockchain (diffSummaries blockchainKey summaryDimension S S) = Some sm ∨
     code (diffSummaries blockchainKey summaryDimension S S) = Some sm ∨
     package (diffSummaries blockchainKey summaryDimension S S) = Some sm →
     added sm = 0 ∧ removed sm = 0).
Proof.
  assert (∀ ty sm,
            buildSummaries (artifactsSummary blockchainKey summaryDimension S S) !! ty
              = Some sm → added sm = 0 ∧ removed sm = 0) as Hsum.
  { intros ty sm. apply buildSummaries_existing_rows, artifactsSummary_same. }
  split_and!.
  - intros r. apply classify_same.
  - intros r. apply classify_same.
  - intros r. apply classify_same.
  - intros r d. apply classifyBlockchain_same.
  - intros x. apply classify_covers.
  - intros x. apply classify_covers.
  - intros x. apply classify_covers.
  - intros x. apply classifyBlockchain_covers.
  - exact Hsum.
  - intros sm [Hs|[Hs|Hs]]; exact (Hsum _ _ Hs).
Qed.

End DiffProperties.

(** ** The selection for validation *)

Lemma added_not_unchanged st : st = "ADDED" → st ∈ ["REMOVED"; "EXISTING"] → False.
Proof.
  intros -> Hin. repeat (apply elem_of_cons in Hin as [Hin|Hin]; [discriminate|]).
  by apply elem_of_nil in Hin.
Qed.

Section Selection.

Context {K : Type} `{EqDecision K}.
Variable blockchainKey : Dimension → BlockchainRow.t → K.

(** C7.  For two snapshots, a classified blockchain row is selected for
    validation exactly when its address, network or tag status is ADDED; a
    row whose three statuses are each REMOVED or EXISTING is not selected;
    and every validation item stands for a selected row of its address. *)
Theorem toValidate_only_added (main pr : Snapshot.t) :
  let rows := classifiedBlockchain blockchainKey main pr in
  let selected := selectedForValidation rows in
  (∀ r, r ∈ selected ↔
        r ∈ rows ∧
        (BlockchainStatus.address_status r = "ADDED" ∨
         BlockchainStatus.network_status r = "ADDED" ∨
         BlockchainStatus.network_tag_status r = "ADDED")) ∧
  (∀ r, BlockchainStatus.address_status r ∈ ["REMOVED"; "EXISTING"] →
        BlockchainStatus.network_status r ∈ ["REMOVED"; "EXISTING"] →
        BlockchainStatus.network_tag_status r ∈ ["REMOVED"; "EXISTING"] →
        r ∉ selected) ∧
  (∀ item, item ∈ toValidate blockchainKey main pr →
        ∃ r, r ∈ selected ∧
             BlockchainStatus.address r = BlockchainValidationItem.address item).
Proof.
  cbn zeta. split_and!.
  - intros r. unfold selectedForValidation. rewrite list_elem_of_filter. tauto.
  - intros r Ha Hn Ht Hsel. unfold selectedForValidation in Hsel.
    apply list_elem_of_filter in Hsel as [[Hs|[Hs|Hs]] _];
      eauto using added_not_unchanged.
  - intros item. unfold toValidate, toValidateItems.
    intros (addr & -> & Haddr)%list_elem_of_fmap.
    apply elem_of_remove_dups, list_elem_of_fmap in Haddr as (r & -> & Hr).
    by exists r.
Qed.

End Selection.

(** Scenario C of the specification: a new tag on an unchanged address gets
    the address selected. *)
Example scenario_tag_added :
  toValidate sampleKey scenarioMain scenarioPr =
  [BlockchainValidationItem.mk "0xABC" ["deployer"] ["optimism"]].
Proof. vm_compute. reflexivity. Qed.

(** Scenario A of the specification: a removed artifact is not selected. *)
Example scenario_removed :
  BlockchainStatus.address_status <$>
    classifiedBlockchain sampleKey scenarioMain (snapshotOf []) = ["REMOVED"] ∧
  toValidate sampleKey scenarioMain (snapshotOf []) = [].
Proof. vm_compute. split; reflexivity. Qed.

(** * Further properties of [index.ts] *)

(** ** The summaries loop, type by type *)

Lemma summariesStep_lookup m row ty :
  summariesStep m row !! ty =
  if decide (SummaryRow.type row = ty) then Some (summaryStep (m !! ty) row)
  else m !! ty.
Proof.
  unfold summariesStep, summaryStep. case_decide as Hty.
  - subst ty. destruct (m !! SummaryRow.type row) as [s0|]; [|by rewrite lookup_insert_eq].
    repeat case_match; by rewrite lookup_insert_eq.
  - destruct (m !! SummaryRow.type row) as [s0|]; repeat case_match;
      by rewrite lookup_insert_ne.
Qed.

(** The entry of a type is the fold of [summaryStep] over the rows of that
    type, in their order. *)
Lemma foldl_summariesStep_lookup m rows ty :
  foldl summariesStep m rows !! ty =
  foldl (λ o row, Some (summaryStep o row)) (m !! ty)
    (filter (λ row, SummaryRow.type row = ty) rows).
Proof.
  revert m. induction rows as [|row rows IH]; intros m; [done|].
  cbn [foldl]. rewrite IH, summariesStep_lookup.
  case_decide as Hty.
  - by rewrite filter_cons_True.
  - by rewrite filter_cons_False.
Qed.

Lemma buildSummaries_lookup rows ty :
  buildSummaries rows !! ty =
  foldl (λ o row, Some (summaryStep o row)) None
    (filter (λ row, SummaryRow.type row = ty) rows).
Proof. unfold buildSummaries. by rewrite foldl_summariesStep_lookup, lookup_empty. Qed.

(** The summary of a type depends on the rows of that type only: rows of
    other types, wherever they stand in the table, do not change it. *)
Theorem buildSummaries_other_types_irrelevant rows rows' ty :
  filter (λ row, SummaryRow.type row = ty) rows =
    filter (λ row, SummaryRow.type row = ty) rows' →
  buildSummaries rows !! ty = buildSummaries rows' !! ty.
Proof. intros Heq. by rewrite !buildSummaries_lookup, Heq. Qed.

Lemma buildSummaries_other_types_irrelevant_witness :
  buildSummaries rowsRemovedFirst !! "BLOCKCHAIN" =
  buildSummaries
    [ SummaryRow.mk "BLOCKCHAIN" "REMOVED" 2 1;
      SummaryRow.mk "BLOCKCHAIN" "ADDED" 3 2;
      SummaryRow.mk "PACKAGE" "ADDED" 9 9;
      SummaryRow.mk "BLOCKCHAIN" "EXISTING" 5 4 ] !! "BLOCKCHAIN".
Proof.
  apply (buildSummaries_other_types_irrelevant rowsRemovedFirst
           [ SummaryRow.mk "BLOCKCHAIN" "REMOVED" 2 1;
             SummaryRow.mk "BLOCKCHAIN" "ADDED" 3 2;
             SummaryRow.mk "PACKAGE" "ADDED" 9 9;
             SummaryRow.mk "BLOCKCHAIN" "EXISTING" 5 4 ] "BLOCKCHAIN").
  vm_compute. reflexivity.
Defined.

(** [summaries] has an entry for exactly the types that occur in the table;
    so a summary handed to the message template is [undefined] exactly when
    the table has no row of its type. *)
Theorem buildSummaries_dom rows :
  dom (buildSummaries rows) = (list_to_set (SummaryRow.type <$> rows) : gset string) ∧
  (blockchain (artifactSummaries (buildSummaries rows)) = None ↔
   "BLOCKCHAIN" ∉ SummaryRow.type <$> rows) ∧
  (code (artifactSummaries (buildSummaries rows)) = None ↔
   "CODE" ∉ SummaryRow.type <$> rows) ∧
  (package (artifactSummaries (buildSummaries rows)) = None ↔
   "PACKAGE" ∉ SummaryRow.type <$> rows).
Proof.
  assert (∀ m, dom (foldl summariesStep m rows) =
               dom m ∪ (list_to_set (SummaryRow.type <$> rows) : gset string)) as Hdom.
  { induction rows as [|row rows IH]; intros m; cbn [foldl].
    - rewrite fmap_nil, list_to_set_nil. by rewrite union_empty_r_L.
    - rewrite IH, fmap_cons, list_to_set_cons.
      assert (dom (summariesStep m row) = {[SummaryRow.type row]} ∪ dom m) as ->.
      { unfold summariesStep. repeat case_match; by rewrite dom_insert_L. }
      by rewrite (comm_L (∪) {[SummaryRow.type row]} (dom m)), <- (assoc_L (∪)). }
  assert (dom (buildSummaries rows) = (list_to_set (SummaryRow.type <$> rows) : gset string))
    as Hd.
  { unfold buildSummaries. by rewrite Hdom, dom_empty_L, union_empty_l_L. }
  assert (∀ ty, buildSummaries rows !! ty = None ↔ ty ∉ SummaryRow.type <$> rows) as Hnone.
  { intros ty. rewrite <- not_elem_of_dom, Hd, elem_of_list_to_set. done. }
  split; [exact Hd|]. unfold artifactSummaries. cbn. split_and!; apply Hnone.
Qed.

(** The count of the first row of a list, [0] for the empty list. *)
Lemma reportedCount_filter rows ty st :
  reportedCount rows ty st =
  default 0 (SummaryRow.count <$>
               head (filter (λ row, SummaryRow.status row = st)
                       (filter (λ row, SummaryRow.type row = ty) rows))).
Proof.
  unfold reportedCount. rewrite list_filter_filter.
  rewrite (list_filter_iff (λ r, SummaryRow.type r = ty ∧ SummaryRow.status r = st)
             (λ r, SummaryRow.status r = st ∧ SummaryRow.type r = ty)) by tauto.
  by destruct (filter _ rows).
Qed.

Lemma filter_type_Forall rows ty l :
  filter (λ row, SummaryRow.type row = ty) rows = l →
  Forall (λ row, SummaryRow.type row = ty) l.
Proof.
  intros <-. apply Forall_forall. intros row Hrow.
  by apply list_elem_of_filter in Hrow as [? _].
Qed.

Lemma head_last_short {A} (l : list A) : (length l ≤ 1)%nat → head l = last l.
Proof. destruct l as [|a [|b l]]; cbn; [done|done|lia]. Qed.

(** What the rows after the first do to the entry of their type. *)
Lemma foldl_summaryStep_rest s rest :
  Forall (λ row, SummaryRow.type row ≠ "REMOVED") rest →
  ∃ sm,
    foldl (λ o row, Some (summaryStep o row)) (Some s) rest = Some sm ∧
    removed sm = removed s ∧
    added sm =
      default (added s)
        (SummaryRow.count <$> last (filter (λ row, SummaryRow.status row = "ADDED") rest)) ∧
    (Forall (λ row, SummaryRow.status row = "ADDED" ∨ SummaryRow.status row = "EXISTING") rest →
     existing sm =
       default (existing s)
         (SummaryRow.count <$>
            last (filter (λ row, SummaryRow.status row = "EXISTING") rest))).
Proof.
  induction rest as [|row rest IH] using rev_ind; intros Hty.
  { exists s. by cbn. }
  apply Forall_app in Hty as [Hty Hrow]. apply Forall_inv in Hrow.
  destruct (IH Hty) as (sm & Hfold & Hrem & Hadd & Hex).
  rewrite foldl_snoc, Hfold. eexists. split; [done|].
  rewrite !filter_app, !filter_singleton by exact [].
  apply String.eqb_neq in Hrow. unfold summaryStep. rewrite Hrow.
  destruct (String.eqb (SummaryRow.status row) "ADDED") eqn:Hst.
  - apply String.eqb_eq in Hst. rewrite decide_True by done.
    rewrite decide_False by (rewrite Hst; discriminate).
    rewrite last_snoc, app_nil_r. cbn. split; [done|]. split; [done|].
    intros Hall. apply Forall_app in Hall as [Hall _]. by apply Hex.
  - apply String.eqb_neq in Hst. rewrite decide_False by done.
    rewrite app_nil_r. cbn. split; [done|]. split; [done|].
    intros Hall. apply Forall_app in Hall as [Hall Hlast].
    apply Forall_inv in Hlast as [?|Hlast]; [done|].
    by rewrite decide_True, last_snoc by done.
Qed.

(** The [removed] field of a type is decided by the first row of that type
    alone: it is that row's count when the row is REMOVED and [0] otherwise,
    whatever rows follow. *)
Theorem summaries_removed_from_first_row rows ty row0 rest :
  filter (λ row, SummaryRow.type row = ty) rows = row0 :: rest →
  ty ≠ "REMOVED" →
  ∃ sm,
    buildSummaries rows !! ty = Some sm ∧
    removed sm =
      if String.eqb (SummaryRow.status row0) "REMOVED" then SummaryRow.count row0 else 0.
Proof.
  intros Hrows Hty. rewrite buildSummaries_lookup, Hrows. cbn [foldl].
  pose proof (filter_type_Forall _ _ _ Hrows) as Hall.
  apply Forall_cons in Hall as [_ Hall].
  destruct (foldl_summaryStep_rest (summaryStep None row0) rest) as (sm & -> & Hrem & _).
  { eapply Forall_impl; [exact Hall|]. cbn. by intros row ->. }
  exists sm. by rewrite Hrem.
Qed.

Lemma summaries_removed_from_first_row_witness :
  ∃ sm,
    buildSummaries exampleSummaryRows !! "BLOCKCHAIN" = Some sm ∧
    removed sm =
      if String.eqb (SummaryRow.status (SummaryRow.mk "BLOCKCHAIN" "ADDED" 3 2)) "REMOVED"
      then SummaryRow.count (SummaryRow.mk "BLOCKCHAIN" "ADDED" 3 2) else 0.
Proof.
  apply (summaries_removed_from_first_row exampleSummaryRows "BLOCKCHAIN"
           (SummaryRow.mk "BLOCKCHAIN" "ADDED" 3 2)
           [SummaryRow.mk "BLOCKCHAIN" "REMOVED" 2 1]).
  - vm_compute. reflexivity.
  - discriminate.
Defined.

Lemma foldl_summaryStep_added s rest :
  ∃ sm,
    foldl (λ o row, Some (summaryStep o row)) (Some s) rest = Some sm ∧
    added sm =
      default (added s)
        (SummaryRow.count <$> last (filter (λ row, SummaryRow.status row = "ADDED") rest)).
Proof.
  induction rest as [|row rest IH] using rev_ind.
  { exists s. by cbn. }
  destruct IH as (sm & Hfold & Hadd).
  rewrite foldl_snoc, Hfold. eexists. split; [done|].
  rewrite filter_app, filter_singleton by exact [].
  unfold summaryStep.
  destruct (String.eqb (SummaryRow.status row) "ADDED") eqn:Hst.
  - apply String.eqb_eq in Hst. rewrite decide_True by done. by rewrite last_snoc.
  - apply String.eqb_neq in Hst. rewrite decide_False by done. rewrite app_nil_r.
    by destruct (String.eqb (SummaryRow.type row) "REMOVED").
Qed.

Lemma filter_none {A} (P : A → Prop) `{∀ x, Decision (P x)} (l : list A) :
  Forall (λ x, ¬ P x) l → filter P l = [].
Proof.
  induction 1 as [|x l Hx _ IH]; [done|]. by rewrite filter_cons_False.
Qed.

Lemma filter_status_fresh st row0 (rest : list SummaryRow.t) :
  NoDup (SummaryRow.status <$> row0 :: rest) → SummaryRow.status row0 = st →
  filter (λ row, SummaryRow.status row = st) rest = [].
Proof.
  rewrite fmap_cons. intros [Hnotin _]%NoDup_cons Hst. apply filter_none.
  apply Forall_forall. intros row Hrow Hrst. apply Hnotin.
  rewrite Hst, <- Hrst. by apply list_elem_of_fmap_2.
Qed.

Lemma filter_status_short st (l : list SummaryRow.t) :
  NoDup (SummaryRow.status <$> l) →
  (length (filter (λ row, SummaryRow.status row = st) l) ≤ 1)%nat.
Proof.
  induction l as [|row l IH]; intros Hnd; [cbn; lia|].
  rewrite filter_cons. case_decide as Hst.
  - rewrite (filter_status_fresh st row l Hnd Hst). cbn. lia.
  - rewrite fmap_cons in Hnd. apply NoDup_cons in Hnd as [_ Hnd]. by apply IH.
Qed.

(** The [added] field is always the reported one: when the table has at most
    one ADDED row for a type, [added] is that row's count ([0] without such a
    row), wherever the row stands. *)
Theorem summaries_added_is_reported rows ty sm :
  (length (filter (λ row, SummaryRow.type row = ty ∧ SummaryRow.status row = "ADDED")
             rows) ≤ 1)%nat →
  buildSummaries rows !! ty = Some sm →
  added sm = reportedCount rows ty "ADDED".
Proof.
  intros Hlen. rewrite buildSummaries_lookup, reportedCount_filter.
  rewrite (list_filter_iff _ (λ r, SummaryRow.status r = "ADDED" ∧ SummaryRow.type r = ty))
    in Hlen by tauto.
  rewrite <- list_filter_filter in Hlen.
  destruct (filter (λ row, SummaryRow.type row = ty) rows) as [|row0 rest]; [done|].
  cbn [foldl].
  destruct (foldl_summaryStep_added (summaryStep None row0) rest) as (sm' & -> & Hadd).
  intros [= <-]. rewrite Hadd. rewrite filter_cons in Hlen |- *.
  unfold summaryStep. cbn [added].
  destruct (String.eqb (SummaryRow.status row0) "ADDED") eqn:Hst.
  - apply String.eqb_eq in Hst. rewrite decide_True in Hlen |- * by done.
    destruct (filter _ rest) as [|? ?]; [done|]. cbn in Hlen. lia.
  - apply String.eqb_neq in Hst. rewrite decide_False in Hlen |- * by done.
    by rewrite (head_last_short _ Hlen).
Qed.

Lemma summaries_added_is_reported_witness :
  added (mkSummary 3 0 2) = reportedCount exampleSummaryRows "BLOCKCHAIN" "ADDED".
Proof.
  apply (summaries_added_is_reported exampleSummaryRows "BLOCKCHAIN" (mkSummary 3 0 2)).
  - vm_compute. lia.
  - vm_compute. reflexivity.
Defined.

(** When the summary of a type is right.  Let the rows of a type have
    distinct statuses, the first of them any of the three, the later ones
    ADDED or EXISTING (so a REMOVED row, if there is one, comes first).  Then
    all three fields are the reported counts. *)
Theorem summaries_exact_when_removed_first rows ty row0 rest :
  filter (λ row, SummaryRow.type row = ty) rows = row0 :: rest →
  ty ≠ "REMOVED" →
  SummaryRow.status row0 ∈ ["ADDED"; "REMOVED"; "EXISTING"] →
  Forall (λ row, SummaryRow.status row = "ADDED" ∨ SummaryRow.status row = "EXISTING") rest →
  NoDup (SummaryRow.status <$> row0 :: rest) →
  buildSummaries rows !! ty =
  Some {| added := reportedCount rows ty "ADDED";
          removed := reportedCount rows ty "REMOVED";
          existing := reportedCount rows ty "EXISTING" |}.
Proof.
  intros Hrows Hty Hst0 Hrest Hnd.
  rewrite buildSummaries_lookup, !reportedCount_filter, Hrows. cbn [foldl].
  pose proof (filter_type_Forall _ _ _ Hrows) as Hall.
  apply Forall_cons in Hall as [_ Hall].
  destruct (foldl_summaryStep_rest (summaryStep None row0) rest)
    as (sm & -> & Hrem & Hadd & Hex).
  { eapply Forall_impl; [exact Hall|]. cbn. by intros row ->. }
  specialize (Hex Hrest).
  assert (filter (λ row, SummaryRow.status row = "REMOVED") rest = []) as Hnorem.
  { apply filter_none. eapply Forall_impl; [exact Hrest|].
    cbn. intros row [->| ->]; discriminate. }
  pose proof (λ st, filter_status_fresh st _ _ Hnd) as Hfresh.
  assert (NoDup (SummaryRow.status <$> rest)) as Hnd'.
  { rewrite fmap_cons in Hnd. by apply NoDup_cons in Hnd as [_ ?]. }
  pose proof (λ st, head_last_short _ (filter_status_short st rest Hnd')) as Hshort.
  destruct sm as [a r e]. cbn in Hrem, Hadd, Hex. subst a r e.
  rewrite !filter_cons, Hnorem.
  unfold summaryStep. cbn [added removed existing].
  repeat (apply elem_of_cons in Hst0 as [Hst0|Hst0]); [| | |by apply elem_of_nil in Hst0];
    rewrite Hst0; cbn [String.eqb Ascii.eqb Bool.eqb];
    rewrite ?(Hfresh _ Hst0);
    repeat case_decide; try discriminate; try congruence;
    cbn; rewrite ?Hshort; reflexivity.
Qed.

Lemma summaries_exact_when_removed_first_witness :
  buildSummaries rowsRemovedFirst !! "BLOCKCHAIN" =
  Some {| added := reportedCount rowsRemovedFirst "BLOCKCHAIN" "ADDED";
          removed := reportedCount rowsRemovedFirst "BLOCKCHAIN" "REMOVED";
          existing := reportedCount rowsRemovedFirst "BLOCKCHAIN" "EXISTING" |}.
Proof.
  apply (summaries_exact_when_removed_first rowsRemovedFirst "BLOCKCHAIN"
           (SummaryRow.mk "BLOCKCHAIN" "REMOVED" 2 1)
           [SummaryRow.mk "BLOCKCHAIN" "ADDED" 3 2;
            SummaryRow.mk "BLOCKCHAIN" "EXISTING" 5 4]).
  - vm_compute. reflexivity.
  - discriminate.
  - cbn. right. left.
  - constructor; [by left|]. constructor; [by right|]. constructor.
  - apply (bool_decide_unpack _). vm_compute. reflexivity.
Defined.

Lemma foldl_summaryStep_existing s rest :
  Forall (λ row, SummaryRow.type row ≠ "REMOVED") rest →
  ∃ sm,
    foldl (λ o row, Some (summaryStep o row)) (Some s) rest = Some sm ∧
    existing sm =
      default (existing s)
        (SummaryRow.count <$> last (filter (λ row, SummaryRow.status row ≠ "ADDED") rest)).
Proof.
  induction rest as [|row rest IH] using rev_ind; intros Hty.
  { exists s. by cbn. }
  apply Forall_app in Hty as [Hty Hrow]. apply Forall_inv in Hrow.
  destruct (IH Hty) as (sm & Hfold & Hex).
  rewrite foldl_snoc, Hfold. eexists. split; [done|].
  rewrite filter_app, filter_singleton by exact [].
  apply String.eqb_neq in Hrow. unfold summaryStep. rewrite Hrow.
  destruct (String.eqb (SummaryRow.status row) "ADDED") eqn:Hst.
  - apply String.eqb_eq in Hst. rewrite decide_False by (by intros []).
    by rewrite app_nil_r.
  - apply String.eqb_neq in Hst. rewrite decide_True by done. by rewrite last_snoc.
Qed.

(** The [existing] field of a type holds the count of the last row after
    the first that is not ADDED, whether that row is EXISTING, REMOVED or of
    any other status; without such a row it is the first row's count when
    that row is EXISTING and [0] otherwise. *)
Theorem summaries_existing_from_last_row rows ty row0 rest :
  filter (λ row, SummaryRow.type row = ty) rows = row0 :: rest →
  ty ≠ "REMOVED" →
  ∃ sm,
    buildSummaries rows !! ty = Some sm ∧
    existing sm =
      default (if String.eqb (SummaryRow.status row0) "EXISTING"
               then SummaryRow.count row0 else 0)
        (SummaryRow.count <$> last (filter (λ row, SummaryRow.status row ≠ "ADDED") rest)).
Proof.
  intros Hrows Hty. rewrite buildSummaries_lookup, Hrows. cbn [foldl].
  pose proof (filter_type_Forall _ _ _ Hrows) as Hall.
  apply Forall_cons in Hall as [_ Hall].
  destruct (foldl_summaryStep_existing (summaryStep None row0) rest) as (sm & -> & Hex).
  { eapply Forall_impl; [exact Hall|]. cbn. by intros row ->. }
  exists sm. by rewrite Hex.
Qed.

Lemma summaries_existing_from_last_row_witness :
  ∃ sm,
    buildSummaries exampleSummaryRows !! "BLOCKCHAIN" = Some sm ∧
    existing sm =
      default (if String.eqb (SummaryRow.status (SummaryRow.mk "BLOCKCHAIN" "ADDED" 3 2))
                    "EXISTING"
               then SummaryRow.count (SummaryRow.mk "BLOCKCHAIN" "ADDED" 3 2) else 0)
        (SummaryRow.count <$>
           last (filter (λ row, SummaryRow.status row ≠ "ADDED")
                   [SummaryRow.mk "BLOCKCHAIN" "REMOVED" 2 1])).
Proof.
  apply (summaries_existing_from_last_row exampleSummaryRows "BLOCKCHAIN"
           (SummaryRow.mk "BLOCKCHAIN" "ADDED" 3 2)
           [SummaryRow.mk "BLOCKCHAIN" "REMOVED" 2 1]).
  - vm_compute. reflexivity.
  - discriminate.
Defined.

(** ** The validation loops: tags, networks and bounds *)

(** The loop body looks at the tags only to see which of "eoa", "contract"
    and "deployer" are there: order, repetition and other tags make no
    difference to what it does. *)
Theorem validateNetwork_tags_as_set rpc item1 item2 network s :
  BlockchainValidationItem.address item1 = BlockchainValidationItem.address item2 →
  (∀ p, tagOf p ∈ BlockchainValidationItem.tags item1 ↔
        tagOf p ∈ BlockchainValidationItem.tags item2) →
  validateNetwork rpc item1 network s = validateNetwork rpc item2 network s.
Proof.
  intros Haddr Htags. rewrite !validateNetwork_flat. f_equal.
  unfold attemptsOf. rewrite Haddr.
  rewrite (bool_decide_ext _ _ (Htags isEOA)).
  rewrite (bool_decide_ext _ _ (Htags isContract)).
  by rewrite (bool_decide_ext _ _ (Htags isDeployer)).
Qed.

Lemma validateNetwork_tags_as_set_witness :
  validateNetwork (chainAlways false) itemMessyTags "optimism" loadedPullRequest =
  validateNetwork (chainAlways false) itemCleanTags "optimism" loadedPullRequest.
Proof.
  apply (validateNetwork_tags_as_set (chainAlways false) itemMessyTags itemCleanTags
           "optimism" loadedPullRequest).
  - reflexivity.
  - intros p. destruct p; split; intros Hin;
      first [ apply (bool_decide_unpack _); vm_compute; exact I
            | exfalso; apply (bool_decide_pack _) in Hin; vm_compute in Hin; exact Hin ].
Defined.

Lemma attemptsOf_untagged item network :
  firstCheck (BlockchainValidationItem.tags item) = None → attemptsOf item network = [].
Proof. unfold firstCheck, attemptsOf. by repeat case_bool_decide. Qed.

(** Items without networks or without any of the three tags are passed over:
    no validator is looked up, no predicate is called and the state stays as
    it is, whether or not validators are registered. *)
Theorem validateItems_nothing_to_check rpc items s :
  Forall (λ item, BlockchainValidationItem.networks item = [] ∨
                  firstCheck (BlockchainValidationItem.tags item) = None) items →
  validateItems rpc items s = (Ok tt, s).
Proof.
  intros Hitems. rewrite validateItems_flat.
  assert (expectedAttempts items = []) as ->; [|done].
  unfold expectedAttempts. induction Hitems as [|item items Hitem _ IH]; [done|].
  rewrite bind_cons, IH, app_nil_r. destruct Hitem as [-> | Htags]; [done|].
  induction (BlockchainValidationItem.networks item) as [|n ns IHn]; [done|].
  by rewrite bind_cons, IHn, attemptsOf_untagged.
Qed.

Lemma validateItems_nothing_to_check_witness :
  validateItems chainRejecting [itemNoNetworks; itemOtherTags] newPullRequest =
  (Ok tt, newPullRequest).
Proof.
  apply (validateItems_nothing_to_check chainRejecting [itemNoNetworks; itemOtherTags]
           newPullRequest).
  constructor; [by left|]. constructor; [by right|]. constructor.
Defined.

(** Validating an item with the networks [ns1 ++ ns2] is validating two
    items of the same address and tags, one with [ns1] and one with [ns2]:
    how rows are grouped into items does not matter to the run. *)
Theorem validateItems_split_networks rpc items1 items2 address tags ns1 ns2 s :
  validateItems rpc
    (items1 ++ BlockchainValidationItem.mk address tags (ns1 ++ ns2) :: items2) s =
  validateItems rpc
    (items1 ++ BlockchainValidationItem.mk address tags ns1
            :: BlockchainValidationItem.mk address tags ns2 :: items2) s.
Proof.
  rewrite !validateItems_flat. f_equal. unfold expectedAttempts.
  rewrite !bind_app, !bind_cons. cbn. by rewrite bind_app, <- app_assoc.
Qed.

Lemma length_attemptsOf item network : (length (attemptsOf item network) ≤ 3)%nat.
Proof. unfold attemptsOf. repeat case_bool_decide; cbn; lia. Qed.

Lemma length_expectedAttempts items :
  (length (expectedAttempts items) ≤
   3 * sum_list (length ∘ BlockchainValidationItem.networks <$> items))%nat.
Proof.
  unfold expectedAttempts. induction items as [|item items IH]; [cbn; lia|].
  rewrite bind_cons, length_app, fmap_cons. cbn [sum_list sum_list_with].
  assert (length (BlockchainValidationItem.networks item
                    ≫= λ network, attemptsOf item network) ≤
          3 * length (BlockchainValidationItem.networks item))%nat as Hitem.
  { induction (BlockchainValidationItem.networks item) as [|n ns IHn]; [cbn; lia|].
    rewrite bind_cons, length_app. pose proof (length_attemptsOf item n).
    cbn [length]. lia. }
  change (id ((length ∘ BlockchainValidationItem.networks) item))
    with (length (BlockchainValidationItem.networks item)).
  lia.
Qed.

Lemma length_omap_le {A B} (f : A → option B) (l : list A) :
  (length (omap f l) ≤ length l)%nat.
Proof. induction l as [|x l IH]; cbn; [lia|]. destruct (f x); cbn; lia. Qed.

(** A run adds at most one failure per call and makes at most three calls
    per network entry of an item. *)
Theorem validateItems_failure_bound rpc items s :
  let run := validateItems rpc items s in
  let entries := sum_list (length ∘ BlockchainValidationItem.networks <$> items) in
  (length (validationErrors run.2) + length (calls s) ≤
     length (validationErrors s) + length (calls run.2))%nat ∧
  (length (calls run.2) ≤ length (calls s) + 3 * entries)%nat.
Proof.
  cbn zeta. destruct (validateItems_run rpc items s) as (evs & -> & _ & Hspec).
  cbn. rewrite !length_app.
  pose proof (length_omap_le failureOf evs) as Hfail.
  pose proof (length_expectedAttempts items) as Hexp.
  assert (length evs ≤ length (expectedAttempts items))%nat as Hevs.
  { rewrite <- (length_fmap (attemptOf ∘ fst) evs).
    destruct (validateItems rpc items s).1 as [[]|[m|name|reason]]; cbn in Hspec.
    - by destruct Hspec as [-> _].
    - done.
    - destruct Hspec as (a & rest & -> & _). rewrite length_app. lia.
    - destruct Hspec as (evs0 & c & rest & _ & _ & ->). rewrite length_app. lia. }
  lia.
Qed.


(** ** [loadValidators] on its own *)

(** [loadValidators] writes the entries "optimism" and "mainnet" and no
    other: whatever else is registered stays, and loading again with the same
    environment changes nothing more. *)
Theorem loadValidators_idempotent env s :
  loadValidators env (loadValidators env s).2 = loadValidators env s ∧
  (∀ network, network ≠ "optimism" → network ≠ "mainnet" →
     validators (loadValidators env s).2 !! network = validators s !! network).
Proof.
  rewrite !loadValidators_cases.
  destruct (truthy (OPTIMISM_RPC_URL env)) as [o|], (truthy (MAINNET_RPC_URL env)) as [m|];
    try done.
  cbn. split.
  - do 2 f_equal. apply map_eq. intros network.
    destruct (decide (network = "mainnet")) as [->|Hm]; [by rewrite !lookup_insert_eq|].
    rewrite !(lookup_insert_ne _ "mainnet") by done.
    destruct (decide (network = "optimism")) as [->|Ho]; [by rewrite !lookup_insert_eq|].
    rewrite !(lookup_insert_ne _ "optimism") by done.
    by rewrite !lookup_insert_ne by done.
  - intros network Ho Hm. by rewrite !lookup_insert_ne by done.
Qed.

(** ** The [validate-pr] command *)

Lemma answered_registered rpc vs h evs :
  answered rpc vs h evs →
  Forall (λ ev, vs !! Call.network ev.1 = Some (Call.validator ev.1)) evs.
Proof.
  revert h. induction evs as [|ev evs IH]; intros h; [constructor|].
  cbn. intros (Hv & _ & Hrest). constructor; [done|]. by apply (IH _ Hrest).
Qed.

Lemma validatePR_unfold rpc pr env repl ev q s :
  validatePR rpc pr env repl ev q s =
  match initialize repl ev q with
  | Ok changes =>
      validate rpc pr env changes (mkSt ∅ (validationErrors s) (calls s) (comments s))
  | Throw e => (Throw e, mkSt ∅ (validationErrors s) (calls s) (comments s))
  end.
Proof. unfold validatePR, bind, init. by destruct (initialize repl ev q). Qed.


(** Every predicate call that [validate-pr] makes goes to the Optimism
    validator for the network "optimism" or to the Ethereum validator for
    "mainnet", each built on the RPC URL of its environment variable; no
    other validator is ever called. *)
Theorem validatePR_calls_use_env_validators rpc pr env repl ev q s :
  ∃ evs,
    calls (validatePR rpc pr env repl ev q s).2 = calls s ++ evs ∧
    Forall (λ e,
              (Call.network e.1 = "optimism" ∧
               factory (Call.validator e.1) = OptimismValidator ∧
               truthy (OPTIMISM_RPC_URL env) = Some (rpcUrl (Call.validator e.1))) ∨
              (Call.network e.1 = "mainnet" ∧
               factory (Call.validator e.1) = EthereumValidator ∧
               truthy (MAINNET_RPC_URL env) = Some (rpcUrl (Call.validator e.1)))) evs.
Proof.
  rewrite validatePR_unfold.
  destruct (initialize repl ev q) as [changes|e]; [|exists []; cbn; by rewrite app_nil_r].
  rewrite validate_unfold, loadValidators_cases.
  destruct (truthy (OPTIMISM_RPC_URL env)) as [o|], (truthy (MAINNET_RPC_URL env)) as [m|];
    try (exists []; cbn; by rewrite app_nil_r).
  match goal with |- context [validateItems rpc ?items ?s1] =>
    destruct (validateItems_run rpc items s1) as (evs & Hst & Hans & _);
    destruct (validateItems rpc items s1) as [[[]|e] s2] end;
    cbn in Hst; subst s2; exists evs;
    (split; [first [done | by destruct (negb _)]|]);
    (apply answered_registered in Hans; cbn in Hans;
     eapply Forall_impl; [exact Hans|]; cbn; intros [c out] Hv; cbn in Hv |- *;
     destruct (decide (Call.network c = "mainnet")) as [Hm|Hm];
     [ rewrite Hm, lookup_insert_eq in Hv; injection Hv as <-; by right
     | rewrite lookup_insert_ne in Hv by done;
       destruct (decide (Call.network c = "optimism")) as [Ho|Ho];
       [ rewrite Ho, lookup_insert_eq in Hv; injection Hv as <-; by left
       | by rewrite lookup_insert_ne, lookup_empty in Hv ] ]).
Qed.



(** ** The JSONL export *)

Lemma append_cons ch (a b : string) :
  String.append (String ch a) b = String ch (String.append a b).
Proof. reflexivity. Qed.

Lemma append_empty_l (b : string) : String.append EmptyString b = b.
Proof. reflexivity. Qed.

Lemma append_assoc (a b c : string) :
  String.append (String.append a b) c = String.append a (String.append b c).
Proof.
  induction a as [|ch a IH]; [by rewrite !append_empty_l|].
  by rewrite !append_cons, IH.
Qed.

Lemma append_empty_r (a : string) : String.append a EmptyString = a.
Proof. induction a as [|ch a IH]; [done|]. by rewrite append_cons, IH. Qed.

Lemma jsonlContent_cons {T} (stringify : T → string) x arr :
  jsonlContent stringify (x :: arr) =
  String.append (stringify x) (String.append LF (jsonlContent stringify arr)).
Proof.
  unfold jsonlContent. cbn [foldl]. rewrite append_empty_l.
  assert (∀ acc,
    foldl (λ written item, String.append (String.append written (stringify item)) LF)
      acc arr =
    String.append acc
      (foldl (λ written item, String.append (String.append written (stringify item)) LF)
         EmptyString arr)) as Hacc.
  { induction arr as [|y arr IH]; intros acc; cbn [foldl].
    - by rewrite append_empty_r.
    - rewrite IH. rewrite (IH (String.append _ LF)). rewrite append_empty_l.
      by rewrite !append_assoc. }
  by rewrite Hacc, append_assoc.
Qed.

Lemma splitLines_line cur a rest :
  hasLF a = false →
  splitLines cur (String.append a (String.append LF rest)) =
  String.append cur a :: splitLines EmptyString rest.
Proof.
  revert cur. induction a as [|ch a IH]; intros cur Ha.
  - rewrite append_empty_l, append_empty_r. unfold LF. rewrite append_cons, append_empty_l.
    cbn [splitLines]. by rewrite Ascii.eqb_refl.
  - cbn in Ha. apply orb_false_iff in Ha as [Hch Ha].
    rewrite append_cons. cbn [splitLines]. rewrite Hch, (IH _ Ha), append_assoc.
    by rewrite append_cons, append_empty_l.
Qed.

(** The file that [jsonlExport] writes is newline-delimited: when the
    promise resolves, the file read line by line gives back the JSON text of
    every item, one per line and in the order of the array, provided no JSON
    text holds a line feed (as [JSON.stringify] without indentation
    guarantees). *)
Theorem jsonlExport_lines {T} (stringify : T → string) closeError arr content :
  Forall (λ item, hasLF (stringify item) = false) arr →
  jsonlExport stringify closeError arr = (Ok tt, Some content) →
  splitLines EmptyString content = stringify <$> arr.
Proof.
  intros Harr. unfold jsonlExport. destruct closeError as [err|]; [done|].
  intros [= <-]. induction Harr as [|x arr Hx _ IH]; [done|].
  rewrite jsonlContent_cons, (splitLines_line _ _ _ Hx), IH. done.
Qed.

Lemma jsonlExport_lines_witness :
  splitLines EmptyString (jsonlContent (λ x : string, x) ["{}"; "[1,2]"]) =
  (λ x : string, x) <$> ["{}"; "[1,2]"].
Proof.
  apply (jsonlExport_lines (λ x : string, x) None ["{}"; "[1,2]"]).
  - constructor; [reflexivity|]. constructor; [reflexivity|]. constructor.
  - reflexivity.
Defined.
